(** * nx_rdr_wrtr: reader and writer utilities

    A shallow embedding of [nx_rdr_wrtr/rdr_utils.py] and
    [nx_rdr_wrtr/wrtr_utils.py], and the properties of the row pipeline
    proved over it.

    Conventions of the embedding.
    - A Python [str] is a [string]; its characters are read as the code
      points 0..255.
    - A row is a Python list of [str] that carries a [line_num] attribute
      (the [MutableLine] classes).  Comparison of a row with a list looks at
      the elements only, as [list.__ne__] does.
    - An iterator is a stack of lazy wrappers ([map], [filter], generator
      expressions) over the caller's base reader; the unread rows of the base
      reader are the state that [next] threads, so that two wrapper stacks
      over one base reader share what is left of it.
    - A raised exception is a value of [exn]; functions that may raise return
      [exn + A]. *)

From Stdlib Require Import Ascii String DecimalString DecimalFacts.
From stdpp Require Import base option list strings gmap.

Local Open Scope string_scope.
Local Open Scope list_scope.

#[local] Set Warnings "-clear-no-such-hyp".

(** ** Python built-ins used by the source *)

Module Py.

(** [str.isspace] on one character, for the code points below 256:
    TAB..CR, FS..US, SPACE, NEL and NBSP. *)
Definition isspace (c : ascii) : bool :=
  let n := nat_of_ascii c in
  (((9 <=? n) && (n <=? 13)) || ((28 <=? n) && (n <=? 32))
   || (n =? 133) || (n =? 160))%nat.

(** [s.lstrip()] *)
Fixpoint lstrip (s : string) : string :=
  match s with
  | EmptyString => EmptyString
  | String c s' => if isspace c then lstrip s' else s
  end.

(** [s.rstrip()] *)
Fixpoint rstrip (s : string) : string :=
  match s with
  | EmptyString => EmptyString
  | String c s' =>
      match rstrip s' with
      | EmptyString => if isspace c then EmptyString else String c EmptyString
      | String _ _ as t => String c t
      end
  end.

(** [s.strip()] *)
Definition strip (s : string) : string := lstrip (rstrip s).

(** Truth value of a [str]: non-empty. *)
Definition truthy (s : string) : bool :=
  match s with EmptyString => false | String _ _ => true end.

(** [any(lst)] and [all(lst)] on a list of [str]. *)
Definition any (l : list string) : bool := existsb truthy l.
Definition all (l : list string) : bool := forallb truthy l.

(** [str(n)] for a non-negative [int]. *)
Definition str_of_int (n : nat) : string :=
  NilEmpty.string_of_uint (Nat.to_uint n).

(** [range(n)] *)
Definition range (n : nat) : list nat := seq 0 n.

(** [len(l) != len(set(l))] *)
Definition has_duplicates (l : list string) : bool :=
  negb (length l =? size (list_to_set l : gset string))%nat.

(** [dict(zip(keys, vals))] built in order: a later pair overrides. *)
Definition dict_of_zip {V} (keys : list string) (vals : list V)
  : gmap string V :=
  fold_left (λ m kv, <[kv.1 := kv.2]> m) (zip keys vals) ∅.

(** Every character of the string is white space (the empty string
    included). *)
Fixpoint all_space (s : string) : bool :=
  match s with
  | EmptyString => true
  | String c s' => isspace c && all_space s'
  end.

End Py.

(** ** Exceptions *)

Inductive arg : Type :=
| AInt (n : nat)
| AStr (s : string)
| AList (l : list string).

Inductive exn : Type :=
| ValueError (msg : string) (args : list arg)
| AttributeError (msg : string)
| StopIteration.

(** ** Rows and iterators *)

Record Row : Type := mkRow { line_num : nat; cells : list string }.

(** The wrappers that [list_reader] puts around the base reader. *)
Inductive iter : Type :=
| Rdr
| Map (f : Row → Row) (inner : iter)
| Filter (p : Row → bool) (inner : iter)
| MapNotNone (h : Row → option Row) (inner : iter).

(** The loop of a filtering wrapper: pull from the inner iterator [nxt]
    until [keep] lets a row through.  Every pull takes at least one row of
    the base reader, so [S (length src)] pulls are never used up. *)
Fixpoint pull (nxt : list Row → option (Row * list Row))
    (keep : Row → option Row) (fuel : nat) (src : list Row)
  : option (Row * list Row) :=
  match fuel with
  | O => None
  | S fuel =>
      match nxt src with
      | Some (r, rest) =>
          match keep r with
          | Some r' => Some (r', rest)
          | None => pull nxt keep fuel rest
          end
      | None => None
      end
  end.

(** [next(it)]: one row of the wrapper stack and what is left of the base
    reader, or [None] for [StopIteration]. *)
Fixpoint next (it : iter) (src : list Row) : option (Row * list Row) :=
  match it with
  | Rdr =>
      match src with
      | [] => None
      | r :: rest => Some (r, rest)
      end
  | Map f inner =>
      match next inner src with
      | Some (r, rest) => Some (f r, rest)
      | None => None
      end
  | Filter p inner =>
      pull (next inner) (λ x, if p x then Some x else None)
        (S (length src)) src
  | MapNotNone h inner => pull (next inner) h (S (length src)) src
  end.

(** [list(it)]: every row the iterator yields. *)
Fixpoint drain (fuel : nat) (it : iter) (src : list Row) : list Row :=
  match fuel with
  | O => []
  | S fuel =>
      match next it src with
      | Some (r, rest) => r :: drain fuel it rest
      | None => []
      end
  end.

Definition to_list (it : iter) (src : list Row) : list Row :=
  drain (S (length src)) it src.

(** ** [list_reader] *)

Record options : Type := mkOptions {
  leading_ws : bool;
  trailing_ws : bool;
  ignore_blanks : bool;
  ignore : option (list string);
  handler : option (Row → option Row)
}.

(** The three local functions of [list_reader]: the row is changed in place
    and returned, so it keeps its line number. *)
Definition lstrip (lst : Row) : Row :=
  mkRow (line_num lst) (map Py.lstrip (cells lst)).
Definition rstrip (lst : Row) : Row :=
  mkRow (line_num lst) (map Py.rstrip (cells lst)).
Definition strip (lst : Row) : Row :=
  mkRow (line_num lst) (map Py.strip (cells lst)).

Definition list_reader (rdr : iter) (o : options) : iter :=
  let rdr :=
    if negb (leading_ws o) && negb (trailing_ws o) then Map strip rdr
    else if negb (trailing_ws o) then Map rstrip rdr
    else if negb (leading_ws o) then Map lstrip rdr
    else rdr in
  let rdr :=
    if ignore_blanks o then Filter (λ x, Py.any (cells x)) rdr else rdr in
  let rdr :=
    match ignore o with
    | Some ign => Filter (λ x, bool_decide (cells x ≠ ign)) rdr
    | None => rdr
    end in
  let rdr :=
    match handler o with
    | Some h => MapNotNone h rdr
    | None => rdr
    end in
  rdr.

(** ** Results of code that may raise *)

Inductive result (A : Type) : Type :=
| Ok (a : A)
| Raise (e : exn).
Arguments Ok {A} a.
Arguments Raise {A} e.

#[global] Instance result_ret : MRet result := λ A a, Ok a.
#[global] Instance result_bind : MBind result := λ A B f m,
  match m with
  | Ok a => f a
  | Raise e => Raise e
  end.

Definition raised {A} (m : result A) : Prop := ∃ e, m = Raise e.

(** ** Field resolution: [_get_fields] *)

(** An element of a supplied field list: a name, or an object with a [name]
    attribute. *)
Inductive col : Type :=
| ColName (s : string)
| ColObj (name : string).

(** [getattr(col, 'name', col)] *)
Definition getattr_name (c : col) : string :=
  match c with
  | ColName s => s
  | ColObj name => name
  end.

(** [field_rename.get(x, x)] *)
Definition rename_get (field_rename : gmap string string) (x : string)
  : string :=
  default x (field_rename !! x).

(** Truth value of a [dict]: non-empty. *)
Definition dict_truthy (d : gmap string string) : bool :=
  negb (bool_decide (d = ∅)).

(** The result carries the wrapped reader, the fields, and what the header
    lookup has left of the base reader. *)
Definition _get_fields (rdr : iter) (src : list Row)
    (fields : option (list col)) (handler : option (Row → option Row))
    (leading_ws trailing_ws ignore_blanks ignore_rows_with_fields : bool)
    (field_rename : option (gmap string string))
  : result (iter * list string * list Row) :=
  if bool_decide (fields ≠ None ∧ field_rename ≠ None) then
    Raise (ValueError "rename specified with supplied fields" [])
  else
    '(fields, src) ←
      match fields with
      | None =>
          let tmp_rdr :=
            list_reader rdr
              (mkOptions leading_ws trailing_ws ignore_blanks None handler) in
          match next tmp_rdr src with
          | Some (hdr, rest) => Ok (cells hdr, rest)
          | None => Raise StopIteration
          end
      | Some cols => Ok (map getattr_name cols, src)
      end;
    if bool_decide (fields = []) then
      Raise (ValueError "no fields specified" [])
    else
      let fields :=
        match field_rename with
        | Some m =>
            if dict_truthy m then map (rename_get m) fields else fields
        | None => fields
        end in
      if Py.has_duplicates fields then
        Raise (ValueError "duplicate field names" [AList fields])
      else
        let ignore := if ignore_rows_with_fields then Some fields else None in
        let rdr :=
          list_reader rdr
            (mkOptions leading_ws trailing_ws ignore_blanks ignore handler) in
        Ok (rdr, fields, src).

(** ** The row-to-record mapper: [_map_reader_gen] *)

(** The body of the loop of [_map_reader_gen] for one line: what it yields,
    or the exception it raises. *)
Definition _map_reader_gen_body (fields : list string)
    (rest_key rest_val : option string) (line : Row)
  : result (list string * Row) :=
  let fields_length := length fields in
  let line_length := length (cells line) in
  if (line_length =? fields_length)%nat then
    Ok (fields, line)
  else if (fields_length <? line_length)%nat then
    match rest_key with
    | None =>
        Raise (ValueError "too many fields"
                 [AInt (line_num line); AInt fields_length; AInt line_length])
    | Some rest_key =>
        let active_fields :=
          (fields ++ map (λ x, rest_key +:+ Py.str_of_int x)
                         (Py.range (line_length - fields_length)))%list in
        if Py.has_duplicates active_fields then
          Raise (ValueError "rest_key generated duplicate key"
                   [AInt (line_num line); AList active_fields])
        else Ok (active_fields, line)
    end
  else
    match rest_val with
    | Some rest_val =>
        Ok (fields,
            mkRow (line_num line)
              (cells line
               ++ replicate (fields_length - line_length) rest_val)%list)
    | None =>
        Raise (ValueError "insufficient fields"
                 [AInt (line_num line); AInt fields_length; AInt line_length])
    end.

(** One resumption of a generator. *)
Inductive step (A : Type) : Type :=
| Yield (a : A)
| Throw (e : exn)
| Done.
Arguments Yield {A} a.
Arguments Throw {A} e.
Arguments Done {A}.

(** The frame of a [_map_reader_gen] generator: its arguments, what is left
    of the base reader, and whether it has finished (by exhaustion or by an
    exception). *)
Record map_gen : Type := mkMapGen {
  mg_rdr : iter;
  mg_src : list Row;
  mg_fields : list string;
  mg_rest_key : option string;
  mg_rest_val : option string;
  mg_finished : bool
}.

Definition _map_reader_gen (rdr : iter) (src : list Row)
    (fields : list string) (rest_key rest_val : option string) : map_gen :=
  mkMapGen rdr src fields rest_key rest_val false.

Definition map_gen_advance (g : map_gen) (src : list Row) (fin : bool)
  : map_gen :=
  mkMapGen (mg_rdr g) src (mg_fields g) (mg_rest_key g) (mg_rest_val g) fin.

(** [next(gen)] on a [_map_reader_gen] generator. *)
Definition map_gen_next (g : map_gen)
  : step (list string * Row) * map_gen :=
  if mg_finished g then (Done, g)
  else
    match next (mg_rdr g) (mg_src g) with
    | None => (Done, map_gen_advance g [] true)
    | Some (line, rest) =>
        match _map_reader_gen_body (mg_fields g) (mg_rest_key g)
                (mg_rest_val g) line with
        | Ok y => (Yield y, map_gen_advance g rest false)
        | Raise e => (Throw e, map_gen_advance g rest true)
        end
    end.

(** ** [dict_reader] and [obj_reader] *)

(** The keyword arguments shared by [dict_reader] and [obj_reader]. *)
Record kwargs : Type := mkKwargs {
  kw_fields : option (list col);
  kw_handler : option (Row → option Row);
  kw_leading_ws : bool;
  kw_trailing_ws : bool;
  kw_ignore_blanks : bool;
  kw_rest_key : option string;
  kw_rest_val : option string;
  kw_ignore_rows_with_fields : bool;
  kw_field_rename : option (gmap string string)
}.

(** The defaults of the signature. *)
Definition default_kwargs : kwargs :=
  mkKwargs None None true false true None None true None.

Definition get_fields_kw (rdr : iter) (src : list Row) (kw : kwargs)
  : result (iter * list string * list Row) :=
  _get_fields rdr src (kw_fields kw) (kw_handler kw) (kw_leading_ws kw)
    (kw_trailing_ws kw) (kw_ignore_blanks kw)
    (kw_ignore_rows_with_fields kw) (kw_field_rename kw).

(** The [Line] class of [dict_reader]: a [dict] with a line number. *)
Record DictLine : Type := mkDictLine {
  dl_line_num : nat;
  dl_items : gmap string string
}.

(** [dict_reader]: the checks run at the call; the generator it returns has
    not started. *)
Definition dict_reader (rdr : iter) (src : list Row) (kw : kwargs)
  : result map_gen :=
  '(rdr, fields, src) ← get_fields_kw rdr src kw;
  if negb (Py.all fields) then
    Raise (ValueError "blank field name" [AList fields])
  else
    Ok (_map_reader_gen rdr src fields (kw_rest_key kw) (kw_rest_val kw)).

(** [Line({k: v for k, v in zip(fields, line)}, line.line_num)] *)
Definition dict_line (fields : list string) (line : Row) : DictLine :=
  mkDictLine (line_num line) (Py.dict_of_zip fields (cells line)).

(** [next(gen)] on the generator of [dict_reader]. *)
Definition dict_reader_next (g : map_gen) : step DictLine * map_gen :=
  match map_gen_next g with
  | (Yield (fields, line), g') => (Yield (dict_line fields line), g')
  | (Throw e, g') => (Throw e, g')
  | (Done, g') => (Done, g')
  end.

(** [str.isidentifier] for the code points below 256: a letter or [_], then
    letters, digits, [_] and the middle dot. *)
Definition xid_start (c : ascii) : bool :=
  let n := nat_of_ascii c in
  (((65 <=? n) && (n <=? 90)) || ((97 <=? n) && (n <=? 122)) || (n =? 95)
   || (n =? 170) || (n =? 181) || (n =? 186)
   || ((192 <=? n) && (n <=? 214)) || ((216 <=? n) && (n <=? 246))
   || ((248 <=? n) && (n <=? 255)))%nat.

Definition xid_continue (c : ascii) : bool :=
  let n := nat_of_ascii c in
  (xid_start c || ((48 <=? n) && (n <=? 57)) || (n =? 183))%nat.

Fixpoint all_xid_continue (s : string) : bool :=
  match s with
  | EmptyString => true
  | String c s' => xid_continue c && all_xid_continue s'
  end.

Definition isidentifier (s : string) : bool :=
  match s with
  | EmptyString => false
  | String c s' => xid_start c && all_xid_continue s'
  end.

(** Attribute values of the objects [obj_reader] builds. *)
Inductive pyval : Type :=
| PStr (s : string)
| PInt (n : nat).

(** The test of the loop over the fields in [obj_reader]. *)
Definition invalid_field (field : string) : bool :=
  negb (Py.truthy field) || negb (isidentifier field)
  || bool_decide (field = "line_num").

(** The frame of the generator of [obj_reader]; [og_ctor] is the attribute
    dictionary of a fresh [ctor()]. *)
Record obj_gen : Type := mkObjGen {
  og_gen : map_gen;
  og_ctor : gmap string pyval
}.

Definition obj_reader (rdr : iter) (src : list Row)
    (ctor : gmap string pyval) (kw : kwargs) : result obj_gen :=
  '(rdr, fields, src) ← get_fields_kw rdr src kw;
  match find invalid_field fields with
  | Some field => Raise (ValueError "invalid field name" [AStr field])
  | None =>
      Ok (mkObjGen
            (_map_reader_gen rdr src fields (kw_rest_key kw) (kw_rest_val kw))
            ctor)
  end.

(** [setattr(result, key, val)] for the pairs of [zip(fields, line)], then
    [result.line_num = line.line_num]. *)
Definition build_obj (ctor : gmap string pyval) (fields : list string)
    (line : Row) : gmap string pyval :=
  <["line_num" := PInt (line_num line)]>
    (fold_left (λ o kv, <[kv.1 := PStr kv.2]> o)
       (zip fields (cells line)) ctor).

(** [next(gen)] on the generator of [obj_reader]. *)
Definition obj_reader_next (g : obj_gen)
  : step (gmap string pyval) * obj_gen :=
  match map_gen_next (og_gen g) with
  | (Yield (fields, line), g') =>
      (Yield (build_obj (og_ctor g) fields line), mkObjGen g' (og_ctor g))
  | (Throw e, g') => (Throw e, mkObjGen g' (og_ctor g))
  | (Done, g') => (Done, mkObjGen g' (og_ctor g))
  end.

(** Iterating a generator to its end: what it yields, and the exception that
    ended it, if one did. *)
Fixpoint run {G A : Type} (nxt : G → step A * G) (fuel : nat) (g : G)
  : list A * option exn :=
  match fuel with
  | O => ([], None)
  | S fuel =>
      match nxt g with
      | (Yield a, g') =>
          let '(l, e) := run nxt fuel g' in (a :: l, e)
      | (Throw e, _) => ([], Some e)
      | (Done, _) => ([], None)
      end
  end.

Definition dict_reader_run (g : map_gen) : list DictLine * option exn :=
  run dict_reader_next (S (length (mg_src g))) g.

Definition obj_reader_run (g : obj_gen)
  : list (gmap string pyval) * option exn :=
  run obj_reader_next (S (length (mg_src (og_gen g)))) g.

(** ** The pipeline read off the specification

    The per-row reading of the row normalizer: trim, then skip a blank row,
    then skip the sentinel, then the handler.  The theorems below compare
    [list_reader] with it. *)

Definition trim_row (leading_ws trailing_ws : bool) (r : Row) : Row :=
  let r := if trailing_ws then r else rstrip r in
  if leading_ws then r else lstrip r.

Definition clean_row (o : options) (r : Row) : option Row :=
  let t := trim_row (leading_ws o) (trailing_ws o) r in
  if ignore_blanks o && negb (Py.any (cells t)) then None
  else if bool_decide (ignore o = Some (cells t)) then None
  else
    match handler o with
    | Some h => h t
    | None => Some t
    end.

(** What one row of the base reader becomes on its way through a wrapper
    stack. *)
Fixpoint pass (it : iter) (r : Row) : option Row :=
  match it with
  | Rdr => Some r
  | Map f inner => f <$> pass inner r
  | Filter p inner => x ← pass inner r; if p x then Some x else None
  | MapNotNone h inner => pass inner r ≫= h
  end.

(** The first row that gets through, and the rows after it. *)
Fixpoint first_pass (f : Row → option Row) (src : list Row)
  : option (Row * list Row) :=
  match src with
  | [] => None
  | r :: rest =>
      match f r with
      | Some x => Some (x, rest)
      | None => first_pass f rest
      end
  end.

(** The records of a list of cleaned rows, up to the first row that the
    mapper rejects. *)
Fixpoint map_rows {A : Type} (mk : list string → Row → A)
    (fields : list string) (rest_key rest_val : option string)
    (rows : list Row) : list A * option exn :=
  match rows with
  | [] => ([], None)
  | line :: rows =>
      match _map_reader_gen_body fields rest_key rest_val line with
      | Ok (fs, line') =>
          let '(l, e) := map_rows mk fields rest_key rest_val rows in
          (mk fs line' :: l, e)
      | Raise e => ([], Some e)
      end
  end.

(** ** The write path *)

(** Modelled from the spec: [nx_misc.flatten_dict], which is not part of the
    source.  The flattener gives the values of a record in field order; a
    missing key is filled with the configured default or fails; extra keys
    are ignored, rejected, or collected (here: appended after the field
    values, in key order). *)
Inductive extras_action : Type :=
| ExtrasIgnore
| ExtrasRaise
| ExtrasCollect.

Fixpoint flatten_values {V : Type} (data : gmap string V)
    (fields : list string) (rest_val : option V) : result (list V) :=
  match fields with
  | [] => Ok []
  | f :: fields =>
      match data !! f, rest_val with
      | Some v, _ | None, Some v =>
          vs ← flatten_values data fields rest_val; Ok (v :: vs)
      | None, None => Raise (ValueError "missing field" [AStr f])
      end
  end.

Definition flatten_dict {V : Type} (data : gmap string V)
    (fields : list string) (rest_val : option V) (extras : extras_action)
  : result (list V) :=
  vs ← flatten_values data fields rest_val;
  let extra :=
    filter (λ kv, bool_decide (kv.1 ∉ fields)) (map_to_list data) in
  match extras with
  | ExtrasIgnore => Ok vs
  | ExtrasRaise =>
      if bool_decide (extra = []) then Ok vs
      else Raise (ValueError "extra fields" [AList (extra.*1)])
  | ExtrasCollect => Ok (vs ++ extra.*2)%list
  end.

(** A value handed to a writer: [None], or an object given by its [str()]. *)
Abbreviation value := (option string).

(** [v is not None and str(v).strip()] *)
Definition nonblank (v : value) : bool :=
  match v with
  | None => false
  | Some s => Py.truthy (Py.strip s)
  end.

(** The underlying row writer: the rows it was given and how often its
    [close] was called. *)
Record Writer : Type := mkWriter {
  w_rows : list (list value);
  w_close_calls : nat
}.

Definition Writer_write (w : Writer) (lst : list value) : Writer :=
  mkWriter (w_rows w ++ [lst]) (w_close_calls w).

Definition Writer_close (w : Writer) : Writer :=
  mkWriter (w_rows w) (S (w_close_calls w)).

(** The temporary file behind [csv.writer]: the rows as written (a [None]
    becomes the empty string) and how often it was closed. *)
Record TempFile : Type := mkTempFile {
  f_rows : list (list string);
  f_close_calls : nat
}.

Definition csv_writerow (f : TempFile) (data : list value) : TempFile :=
  mkTempFile (f_rows f ++ [map (default "") data]) (f_close_calls f).

Definition TempFile_close (f : TempFile) : TempFile :=
  mkTempFile (f_rows f) (S (f_close_calls f)).

(** [csv.DictReader(fobj)]: the first row gives the keys; an empty row is
    skipped; a short row is completed with [None]; the values beyond the
    keys go under the key [None], which no field list names, and are left
    out here. *)
Definition csv_DictReader (f : TempFile) : list (gmap string value) :=
  match f_rows f with
  | [] => []
  | names :: rows =>
      map (λ row,
             Py.dict_of_zip names
               (map Some row ++ replicate (length names - length row) None))
          (filter (λ row, bool_decide (row ≠ [])) rows)
  end.

(** *** [HeaderlessMixin] *)

(** [hl_wrtr] tells whether [self._wrtr] refers to the underlying writer
    [hl_sink] or is [None]. *)
Record HeaderlessMixin : Type := mkHeaderless {
  hl_closed : bool;
  hl_wrtr : bool;
  hl_sink : Writer
}.

Definition no_attribute : exn :=
  AttributeError "'NoneType' object has no attribute".

Definition HeaderlessMixin_close (self : HeaderlessMixin)
  : HeaderlessMixin * option exn :=
  if negb (hl_closed self) then
    if hl_wrtr self then
      (mkHeaderless true false (Writer_close (hl_sink self)), None)
    else (mkHeaderless true false (hl_sink self), Some no_attribute)
  else (self, None).

Definition HeaderlessMixin__exit__ (self : HeaderlessMixin)
  : HeaderlessMixin * option exn :=
  HeaderlessMixin_close self.

Definition HeaderlessMixin__write (self : HeaderlessMixin) (lst : list value)
  : HeaderlessMixin * option exn :=
  if hl_wrtr self then
    (mkHeaderless (hl_closed self) true (Writer_write (hl_sink self) lst),
     None)
  else (self, Some no_attribute).

(** *** [HeaderMixin] *)

(** [h_wrtr] and [h_fobj] tell whether [self._wrtr] and [self._fobj] refer
    to the underlying writer [h_sink] and the temporary file [h_tmp] or are
    [None]. *)
Record HeaderMixin : Type := mkHeader {
  h_fields : list string;
  h_minimize : bool;
  h_handler : option (list value → option (list value));
  h_closed : bool;
  h_wrtr : bool;
  h_fobj : bool;
  h_fields_used : gset string;
  h_sink : Writer;
  h_tmp : TempFile
}.

(** The rows replayed at close: each buffered record flattened to the
    fields kept, written until one fails. *)
Fixpoint replay (w : Writer) (fields : list string)
    (records : list (gmap string value)) : Writer * option exn :=
  match records with
  | [] => (w, None)
  | data :: records =>
      match flatten_dict data fields None ExtrasIgnore with
      | Ok lst => replay (Writer_write w lst) fields records
      | Raise e => (w, Some e)
      end
  end.

(** The header chosen at close. *)
Definition close_fields (self : HeaderMixin) : list string :=
  let fields :=
    filter (λ x, bool_decide (x ∈ h_fields_used self)) (h_fields self) in
  if bool_decide (fields = []) then h_fields self else fields.

Definition HeaderMixin_close (self : HeaderMixin)
  : HeaderMixin * option exn :=
  if negb (h_closed self) then
    let upd fobj sink tmp :=
      mkHeader (h_fields self) (h_minimize self) (h_handler self) true false
        fobj (h_fields_used self) sink tmp in
    if h_minimize self then
      match h_fobj self, h_wrtr self with
      | true, true =>
          let fields := close_fields self in
          let w := Writer_write (h_sink self) (map Some fields) in
          let '(w, e) := replay w fields (csv_DictReader (h_tmp self)) in
          (upd false (Writer_close w) (TempFile_close (h_tmp self)), e)
      | true, false =>
          (upd false (h_sink self) (TempFile_close (h_tmp self)),
           Some no_attribute)
      | false, true =>
          (upd false (Writer_close (h_sink self)) (h_tmp self),
           Some no_attribute)
      | false, false =>
          (upd false (h_sink self) (h_tmp self), Some no_attribute)
      end
    else if h_wrtr self then
      (upd (h_fobj self) (Writer_close (h_sink self)) (h_tmp self), None)
    else (upd (h_fobj self) (h_sink self) (h_tmp self), Some no_attribute)
  else (self, None).

Definition HeaderMixin__exit__ (self : HeaderMixin)
  : HeaderMixin * option exn :=
  HeaderMixin_close self.

Definition HeaderMixin_write_header (self : HeaderMixin)
  : HeaderMixin * option exn :=
  if h_minimize self then (self, Some (ValueError "unsupported operation" []))
  else if h_wrtr self then
    (mkHeader (h_fields self) (h_minimize self) (h_handler self)
       (h_closed self) (h_wrtr self) (h_fobj self) (h_fields_used self)
       (Writer_write (h_sink self) (map Some (h_fields self))) (h_tmp self),
     None)
  else (self, Some no_attribute).

(** The fields that get a non-blank value from [data]:
    [{k for k, v in zip(self.fields, data) if v is not None and
    str(v).strip()}]. *)
Definition fields_of_data (fields : list string) (data : list value)
  : gset string :=
  list_to_set (filter (λ kv, nonblank kv.2) (zip fields data)).*1.

(** What [_write] does with the list once the handler has passed it. *)
Definition HeaderMixin_store (self : HeaderMixin) (data : list value)
  : HeaderMixin * option exn :=
  if h_minimize self then
    let used := h_fields_used self ∪ fields_of_data (h_fields self) data in
    let upd tmp :=
      mkHeader (h_fields self) (h_minimize self) (h_handler self)
        (h_closed self) (h_wrtr self) (h_fobj self) used (h_sink self) tmp in
    if (f_close_calls (h_tmp self) =? 0)%nat then
      (upd (csv_writerow (h_tmp self) data), None)
    else
      (upd (h_tmp self),
       Some (ValueError "I/O operation on closed file." []))
  else if h_wrtr self then
    (mkHeader (h_fields self) (h_minimize self) (h_handler self)
       (h_closed self) (h_wrtr self) (h_fobj self) (h_fields_used self)
       (Writer_write (h_sink self) data) (h_tmp self),
     None)
  else (self, Some no_attribute).

Definition HeaderMixin__write (self : HeaderMixin) (lst : list value)
  : HeaderMixin * option exn :=
  match h_handler self with
  | Some handler =>
      match handler lst with
      | None => (self, None)
      | Some data =>
          if negb (length data =? length lst)%nat then
            (self, Some (AttributeError "data length changed in handler"))
          else HeaderMixin_store self data
      end
  | None => HeaderMixin_store self lst
  end.

(** [DictWriterMixin.write] over a [HeaderMixin]; [rest_val] and [extras]
    are the attributes of the concrete writer. *)
Definition DictWriterMixin_write (self : HeaderMixin)
    (rest_val : option value) (extras : extras_action)
    (data : gmap string value) : HeaderMixin * option exn :=
  match flatten_dict data (h_fields self) rest_val extras with
  | Ok lst => HeaderMixin__write self lst
  | Raise e => (self, Some e)
  end.

(** Modelled from the spec: the concrete writer classes, which open the
    underlying writer and the temporary store, are not part of the source.
    An open header writer is not closed, has both objects attached and no
    field used yet; [HeaderMixin.__init__] then writes the field list to
    the temporary file when minimizing. *)
Definition HeaderMixin_open (fields : list string) (minimize : bool)
    (handler : option (list value → option (list value))) : HeaderMixin :=
  let tmp := mkTempFile [] 0 in
  mkHeader fields minimize handler false true true ∅ (mkWriter [] 0)
    (if minimize then csv_writerow tmp (map Some fields) else tmp).

(** Modelled from the spec: an open headerless writer, see
    [HeaderMixin_open]. *)
Definition HeaderlessMixin_open : HeaderlessMixin :=
  mkHeaderless false true (mkWriter [] 0).

(** A sequence of [_write] calls; a call that raises leaves the caller free
    to go on. *)
Definition write_all (self : HeaderMixin) (rows : list (list value))
  : HeaderMixin :=
  fold_left (λ s lst, (HeaderMixin__write s lst).1) rows self.

(** The two ways a writer gets closed: a call of [close], or the end of a
    [with] block. *)
Inductive closing : Type :=
| ByClose
| ByExit.

Definition header_closing (self : HeaderMixin) (c : closing) : HeaderMixin :=
  match c with
  | ByClose => (HeaderMixin_close self).1
  | ByExit => (HeaderMixin__exit__ self).1
  end.

Definition headerless_closing (self : HeaderlessMixin) (c : closing)
  : HeaderlessMixin :=
  match c with
  | ByClose => (HeaderlessMixin_close self).1
  | ByExit => (HeaderlessMixin__exit__ self).1
  end.

Definition headerless_write_all (self : HeaderlessMixin)
    (rows : list (list value)) : HeaderlessMixin :=
  fold_left (λ s lst, (HeaderlessMixin__write s lst).1) rows self.

(** The list that reaches the buffer for a list given to [_write]: the
    handler may drop it, and its result is refused when the length differs. *)
Definition written_data
    (handler : option (list value → option (list value)))
    (lst : list value) : option (list value) :=
  match handler with
  | Some h =>
      data ← h lst;
      if (length data =? length lst)%nat then Some data else None
  | None => Some lst
  end.

(** Field [x] received a non-blank value in one of the written rows. *)
Definition received (fields : list string) (rows : list (list value))
    (x : string) : Prop :=
  ∃ data v, data ∈ rows ∧ (x, v) ∈ zip fields data ∧ nonblank v = true.

(** Every field of a row is the empty string. *)
Definition all_empty (l : list string) : bool :=
  forallb (λ s, bool_decide (s = "")) l.

(** Every field of a row is empty or white space. *)
Definition all_blank (l : list string) : bool := forallb Py.all_space l.

(** The names given to the values beyond the fields. *)
Definition rest_keys (rest_key : string) (n : nat) : list string :=
  map (λ i, rest_key +:+ Py.str_of_int i) (seq 0 n).

(** The normalizer options for the header lookup: no sentinel yet. *)
Definition header_options (kw : kwargs) : options :=
  mkOptions (kw_leading_ws kw) (kw_trailing_ws kw) (kw_ignore_blanks kw)
    None (kw_handler kw).

(** The field names before renaming, supplied or taken from the first
    cleaned row, with the rows left for the data. *)
Definition field_source (src : list Row) (kw : kwargs)
  : option (list string * list Row) :=
  match kw_fields kw with
  | Some cols => Some (map getattr_name cols, src)
  | None =>
      (λ x, (cells x.1, x.2))
        <$> first_pass (clean_row (header_options kw)) src
  end.

Definition field_names (src : list Row) (kw : kwargs)
  : option (list string) :=
  fst <$> field_source src kw.

(** The field names after the rename mapping, when there is one. *)
Definition renamed (kw : kwargs) (names : list string) : list string :=
  match kw_field_rename kw with
  | Some m => map (rename_get m) names
  | None => names
  end.

(** The normalizer options for the data rows, with [fields] as the sentinel
    when rows equal to the fields are to be ignored. *)
Definition data_options (kw : kwargs) (fields : list string) : options :=
  mkOptions (kw_leading_ws kw) (kw_trailing_ws kw) (kw_ignore_blanks kw)
    (if kw_ignore_rows_with_fields kw then Some fields else None)
    (kw_handler kw).

(** Both option arguments that exclude each other are given. *)
Definition conflicting (kw : kwargs) : Prop :=
  kw_fields kw ≠ None ∧ kw_field_rename kw ≠ None.

(** The first row that a [close] adds to the underlying writer. *)
Definition header_at_close (self : HeaderMixin) : option (list value) :=
  w_rows (h_sink (HeaderMixin_close self).1)
  !! length (w_rows (h_sink self)).



(** A record of the reader as a writer takes it: every value is an object
    given by its [str()]. *)
Definition as_written (d : gmap string string) : gmap string value :=
  Some <$> d.

(** * Properties *)

(** ** Iterators *)

Section first_pass.
Context (f : Row → option Row).

Lemma first_pass_Some src x rest :
  first_pass f src = Some (x, rest) →
  ∃ pre r, src = pre ++ r :: rest ∧ Forall (λ r, f r = None) pre
           ∧ f r = Some x.
Proof.
  induction src as [|r src IH]; simpl; [done|].
  destruct (f r) as [y|] eqn:Hr.
  - intros [= -> ->]. by exists [], r.
  - intros (pre & r' & -> & Hpre & Hr')%IH.
    exists (r :: pre), r'. split_and!; [done| |done]. by constructor.
Qed.

Lemma first_pass_None src :
  first_pass f src = None ↔ Forall (λ r, f r = None) src.
Proof.
  induction src as [|r src IH]; simpl.
  - split; [constructor|done].
  - destruct (f r) eqn:Hr.
    + split; [done|]. inversion 1; congruence.
    + rewrite IH. split; [by constructor|]. by inversion 1.
Qed.

Lemma first_pass_skip pre src :
  Forall (λ r, f r = None) pre →
  first_pass f (pre ++ src) = first_pass f src.
Proof. induction 1 as [|r pre Hr _ IH]; simpl; [done|]. by rewrite Hr. Qed.

Lemma omap_skip pre src :
  Forall (λ r, f r = None) pre → omap f (pre ++ src) = omap f src.
Proof. induction 1 as [|r pre Hr _ IH]; simpl; [done|]. by rewrite Hr. Qed.

Lemma omap_first_pass src :
  omap f src =
    match first_pass f src with
    | Some (x, rest) => x :: omap f rest
    | None => []
    end.
Proof.
  induction src as [|r src IH]; simpl; [done|].
  by destruct (f r).
Qed.

Lemma first_pass_shorter src x rest :
  first_pass f src = Some (x, rest) → length rest < length src.
Proof.
  intros (pre & r & -> & _ & _)%first_pass_Some.
  rewrite length_app. simpl. lia.
Qed.
End first_pass.

Lemma pull_first_pass nxt g keep :
  (∀ src, nxt src = first_pass g src) →
  ∀ fuel src, length src < fuel →
    pull nxt keep fuel src = first_pass (λ r, g r ≫= keep) src.
Proof.
  intros Hnxt. induction fuel as [|fuel IH]; intros src Hlen; [lia|].
  simpl. rewrite Hnxt. destruct (first_pass g src) as [[x rest]|] eqn:E.
  - pose proof (first_pass_shorter _ _ _ _ E) as Hshort.
    apply first_pass_Some in E as (pre & r & -> & Hpre & Hr).
    rewrite first_pass_skip.
    2:{ eapply Forall_impl; [exact Hpre|]. by intros ? ->. }
    simpl. rewrite Hr. simpl. destruct (keep x); [done|].
    apply IH. lia.
  - symmetry. apply first_pass_None. apply first_pass_None in E.
    eapply Forall_impl; [exact E|]. by intros ? ->.
Qed.

(** [next] gives the first row of the base reader that gets through the
    wrappers: the fuel of the filtering loops never runs out. *)
Lemma next_first_pass it src : next it src = first_pass (pass it) src.
Proof.
  revert src. induction it as [|f it IH|p it IH|h it IH]; intros src.
  - by destruct src.
  - simpl. rewrite IH. induction src as [|r src IHsrc]; simpl; [done|].
    destruct (pass it r); simpl; [done|]. apply IHsrc.
  - exact (pull_first_pass _ _ _ IH _ _ (Nat.lt_succ_diag_r _)).
  - exact (pull_first_pass _ _ _ IH _ _ (Nat.lt_succ_diag_r _)).
Qed.

Lemma drain_omap it fuel src :
  length src < fuel → drain fuel it src = omap (pass it) src.
Proof.
  revert src. induction fuel as [|fuel IH]; intros src Hlen; [lia|].
  simpl. rewrite next_first_pass, (omap_first_pass (pass it) src).
  destruct (first_pass (pass it) src) as [[x rest]|] eqn:E; [|done].
  apply first_pass_shorter in E. rewrite IH; [done|lia].
Qed.

Lemma to_list_omap it src : to_list it src = omap (pass it) src.
Proof. apply drain_omap. lia. Qed.

Lemma omap_pointwise {A B} (f g : A → option B) (l : list A) :
  (∀ x, f x = g x) → omap f l = omap g l.
Proof.
  intros Hfg. induction l as [|x l IH]; csimpl; [done|]. by rewrite Hfg, IH.
Qed.

Lemma strip_lstrip_rstrip r : strip r = lstrip (rstrip r).
Proof. unfold strip, lstrip, rstrip. simpl. by rewrite map_map. Qed.

(** One row through the wrappers of [list_reader] is one row through the
    four steps, in their order. *)
Lemma pass_list_reader o r : pass (list_reader Rdr o) r = clean_row o r.
Proof.
  destruct o as [lw tw ib ign h]. unfold list_reader, clean_row, trim_row.
  cbn [leading_ws trailing_ws ignore_blanks ignore handler].
  assert (∀ t inner,
    pass inner r = Some t →
    pass
      (let rdr :=
         if ib then Filter (λ x, Py.any (cells x)) inner else inner in
       let rdr :=
         match ign with
         | Some ign => Filter (λ x, bool_decide (cells x ≠ ign)) rdr
         | None => rdr
         end in
       match h with
       | Some h => MapNotNone h rdr
       | None => rdr
       end) r =
    (if ib && negb (Py.any (cells t)) then None
     else if bool_decide (ign = Some (cells t)) then None
     else match h with Some h => h t | None => Some t end)) as Hrest.
  { intros t inner Ht.
    destruct ib, ign as [ign|], h as [h|]; simpl; rewrite Ht; simpl;
      try destruct (Py.any (cells t)); simpl; try done;
      try (destruct (decide (cells t = ign)) as [->|Hne];
           [rewrite bool_decide_eq_false_2 by naive_solver;
            by rewrite bool_decide_eq_true_2
           |rewrite bool_decide_eq_true_2 by done;
            by rewrite bool_decide_eq_false_2 by congruence]). }
  destruct lw, tw; cbn [negb andb]; apply Hrest; simpl;
    by rewrite ?strip_lstrip_rstrip.
Qed.

Lemma to_list_list_reader o src :
  to_list (list_reader Rdr o) src = omap (clean_row o) src.
Proof.
  rewrite to_list_omap. apply omap_pointwise. intros; apply pass_list_reader.
Qed.

Lemma next_list_reader o src :
  next (list_reader Rdr o) src = first_pass (clean_row o) src.
Proof.
  rewrite next_first_pass. induction src as [|r src IH]; simpl; [done|].
  by rewrite pass_list_reader, IH.
Qed.

(** ** White space *)

Lemma lstrip_empty s : bool_decide (Py.lstrip s = "") = Py.all_space s.
Proof.
  induction s as [|c s IH]; simpl; [done|].
  by destruct (Py.isspace c).
Qed.

Lemma rstrip_empty s : bool_decide (Py.rstrip s = "") = Py.all_space s.
Proof.
  induction s as [|c s IH]; simpl; [done|].
  destruct (Py.rstrip s) as [|a t]; simpl in *.
  - rewrite <- IH. by destruct (Py.isspace c).
  - rewrite <- IH. by rewrite andb_false_r.
Qed.

Lemma all_space_rstrip s : Py.all_space (Py.rstrip s) = Py.all_space s.
Proof.
  induction s as [|c s IH]; simpl; [done|].
  pose proof (rstrip_empty s) as He.
  destruct (Py.rstrip s) as [|a t].
  - rewrite <- He, bool_decide_eq_true_2 by done.
    destruct (Py.isspace c) eqn:Hc; simpl; [done|]. by rewrite Hc.
  - cbn [Py.all_space] in *. by rewrite IH.
Qed.

Lemma strip_empty s : bool_decide (Py.strip s = "") = Py.all_space s.
Proof. unfold Py.strip. by rewrite lstrip_empty, all_space_rstrip. Qed.

Lemma all_empty_map f l :
  (∀ s, bool_decide (f s = "") = Py.all_space s) →
  all_empty (map f l) = all_blank l.
Proof.
  intros Hf. unfold all_empty, all_blank.
  induction l as [|s l IH]; simpl; [done|]. by rewrite Hf, IH.
Qed.

Lemma any_all_empty l : Py.any l = negb (all_empty l).
Proof.
  unfold Py.any, all_empty. induction l as [|s l IH]; simpl; [done|].
  rewrite IH. by destruct s.
Qed.

(** ** The row normalizer *)

(** C2.  The rows that [list_reader] yields are the rows of the base
    reader taken one by one through whitespace trimming, then the blank-row
    test, then the comparison with the ignore sentinel, then the handler, in
    this order; and a row for which the handler returns [None] is left out
    of the output, which is otherwise unchanged. *)
Theorem list_reader_fixed_order (o : options) (src : list Row) :
  to_list (list_reader Rdr o) src = omap (clean_row o) src
  ∧ ∀ h pre r post,
      src = pre ++ r :: post →
      handler o = Some h →
      h (trim_row (leading_ws o) (trailing_ws o) r) = None →
      to_list (list_reader Rdr o) src
      = to_list (list_reader Rdr o) (pre ++ post).
Proof.
  split; [apply to_list_list_reader|].
  intros h pre r post -> Hh Hr. rewrite !to_list_list_reader, !omap_app.
  f_equal. simpl.
  unfold clean_row. rewrite Hh, Hr.
  by repeat match goal with |- context [if ?b then _ else _] => destruct b end.
Qed.

Lemma list_reader_fixed_order_witness :
  let drop_b (r : Row) :=
    if bool_decide (cells r = ["b"]) then None else Some r in
  let o := mkOptions false false true None (Some drop_b) in
  to_list (list_reader Rdr o) [mkRow 1 [" a "]; mkRow 2 [" b"]; mkRow 3 ["c"]]
  = to_list (list_reader Rdr o) [mkRow 1 [" a "]; mkRow 3 ["c"]].
Proof.
  intros drop_b o.
  exact (proj2 (list_reader_fixed_order o _) drop_b
           [mkRow 1 [" a "]] (mkRow 2 [" b"]) [mkRow 3 ["c"]]
           eq_refl eq_refl eq_refl).
Defined.

(** C4, as stated: with blank-row filtering on, the rows removed would be
    those whose every field is empty or white space after the configured
    trimming.  With no trimming configured (the defaults of [list_reader])
    a row of one blank is kept. *)
Lemma blank_filter_keeps_whitespace_row :
  let r := mkRow 1 [" "] in
  all_blank (cells (trim_row true true r)) = true
  ∧ to_list (list_reader Rdr (mkOptions true true true None None)) [r] = [r]
  ∧ to_list (list_reader Rdr (mkOptions true true true None None)) [r]
    ≠ to_list (list_reader Rdr (mkOptions true true false None None))
        (filter (λ r, negb (all_blank (cells (trim_row true true r)))) [r]).
Proof. by vm_compute. Qed.

(** C4, amended.  With blank-row filtering on, the rows removed are exactly
    the rows whose every field is the empty string after the configured
    trimming (the row without fields among them): the output is that of the
    same reader without blank-row filtering on the input without these rows.
    When leading or trailing trimming is on, these are the rows whose every
    field is empty or white space. *)
Theorem blank_filter_removes_empty_rows
    (lw tw : bool) (ign : option (list string))
    (h : option (Row → option Row)) (src : list Row) :
  to_list (list_reader Rdr (mkOptions lw tw true ign h)) src
  = to_list (list_reader Rdr (mkOptions lw tw false ign h))
      (filter (λ r, negb (all_empty (cells (trim_row lw tw r)))) src)
  ∧ (lw && tw = false →
     ∀ r, all_empty (cells (trim_row lw tw r)) = all_blank (cells r)).
Proof.
  split.
  - rewrite !to_list_list_reader.
    assert (∀ r,
      clean_row (mkOptions lw tw true ign h) r
      = if all_empty (cells (trim_row lw tw r)) then None
        else clean_row (mkOptions lw tw false ign h) r) as Hrow.
    { intros r. unfold clean_row.
      cbn [leading_ws trailing_ws ignore_blanks ignore handler].
      rewrite any_all_empty, negb_involutive.
      by destruct (all_empty (cells (trim_row lw tw r))). }
    induction src as [|r src IH]; [done|].
    rewrite filter_cons. csimpl. rewrite IH, Hrow.
    destruct (all_empty (cells (trim_row lw tw r))); simpl; [done|].
    by csimpl.
  - intros Hws r. unfold trim_row.
    destruct lw, tw; try done; simpl; rewrite ?map_map; apply all_empty_map;
      intros s; auto using lstrip_empty, rstrip_empty.
    apply strip_empty.
Qed.

Lemma blank_filter_removes_empty_rows_witness :
  all_empty (cells (trim_row true false (mkRow 1 ["  "; ""])))
  = all_blank (cells (mkRow 1 ["  "; ""])).
Proof.
  exact (proj2 (blank_filter_removes_empty_rows true false None None [])
           eq_refl (mkRow 1 ["  "; ""])).
Defined.

(** ** Duplicates and dictionaries *)

Lemma size_list_to_set_le (l : list string) :
  (size (list_to_set l : gset string) ≤ length l)%nat.
Proof.
  induction l as [|x l IH]; [done|].
  rewrite list_to_set_cons, size_union_alt, size_singleton.
  assert (size (list_to_set l ∖ {[x]} : gset string)
          ≤ size (list_to_set l : gset string))%nat
    by (apply subseteq_size; set_solver).
  simpl. lia.
Qed.

Lemma has_duplicates_false (l : list string) :
  Py.has_duplicates l = false ↔ NoDup l.
Proof.
  unfold Py.has_duplicates. rewrite negb_false_iff, Nat.eqb_eq. split.
  - induction l as [|x l IH]; [constructor|].
    rewrite list_to_set_cons. simpl. intros Hsize.
    pose proof (size_list_to_set_le l) as Hle.
    destruct (decide (x ∈ l)) as [Hin|Hnin].
    + replace ({[x]} ∪ list_to_set l : gset string)
        with (list_to_set l : gset string) in Hsize by set_solver. lia.
    + constructor; [done|]. apply IH.
      rewrite size_union, size_singleton in Hsize by set_solver. lia.
  - intros Hnd. by rewrite size_list_to_set.
Qed.

Lemma has_duplicates_true (l : list string) :
  Py.has_duplicates l = true ↔ ¬ NoDup l.
Proof.
  rewrite <- has_duplicates_false. by destruct (Py.has_duplicates l).
Qed.

Section dict_of_zip.
Context {V : Type}.
Implicit Types (m : gmap string V) (ks : list string) (vs : list V).

Lemma fold_insert_other (l : list (string * V)) m k :
  k ∉ l.*1 →
  fold_left (λ m kv, <[kv.1 := kv.2]> m) l m !! k = m !! k.
Proof.
  revert m. induction l as [|[k' v'] l IH]; intros m Hk; simpl; [done|].
  rewrite IH by set_solver. apply lookup_insert_ne. set_solver.
Qed.

Lemma zip_keys ks vs k : k ∈ (zip ks vs).*1 → k ∈ ks.
Proof.
  revert vs. induction ks as [|k' ks IH]; intros [|v vs]; simpl;
    try by inversion 1.
  rewrite !elem_of_cons. naive_solver.
Qed.

Lemma fold_zip_lookup ks vs m i k v :
  NoDup ks → ks !! i = Some k → vs !! i = Some v →
  fold_left (λ m kv, <[kv.1 := kv.2]> m) (zip ks vs) m !! k = Some v.
Proof.
  intros Hnd. revert vs m i.
  induction Hnd as [|k' ks Hk' Hnd IH]; intros [|v' vs] m [|i] Hk Hv;
    simplify_eq/=.
  - rewrite fold_insert_other; [apply lookup_insert_eq|].
    intros Hin. by apply Hk', (zip_keys _ vs).
  - by eapply IH.
Qed.

Lemma dict_of_zip_lookup ks vs i k v :
  NoDup ks → ks !! i = Some k → vs !! i = Some v →
  Py.dict_of_zip ks vs !! k = Some v.
Proof. apply fold_zip_lookup. Qed.

Lemma dict_of_zip_None ks vs k : k ∉ ks → Py.dict_of_zip ks vs !! k = None.
Proof.
  intros Hk. unfold Py.dict_of_zip. rewrite fold_insert_other; [done|].
  intros Hin. by apply Hk, (zip_keys _ vs).
Qed.
End dict_of_zip.

(** ** The row-to-record mapper *)

(** C1, as stated: a longer row with a rest key configured would always get
    its extra values named.  When a generated name is already a field, the
    row is rejected. *)
Lemma rest_key_collision_fails :
  _map_reader_gen_body ["a"; "extra0"] (Some "extra") None
    (mkRow 7 ["1"; "2"; "3"])
  = Raise (ValueError "rest_key generated duplicate key"
             [AInt 7; AList ["a"; "extra0"; "extra0"]]).
Proof. reflexivity. Qed.

(** C1, amended.  For a row given to the mapper: with as many values as
    fields, the fields and the row are yielded as they are; with more values
    and a rest key, the fields are extended with rest_key+"0", rest_key+"1",
    ... in order when the extended list has no duplicate, and the row fails
    otherwise; with more values and no rest key it fails; with fewer values
    and a rest value the row is padded with it to the field count; with
    fewer values and no rest value it fails.  What is yielded pairs each
    key with the value at its position, and so does the record built from
    it when the keys have no duplicate. *)
Theorem map_row_to_record
    (fields : list string) (rest_key rest_val : option string) (line : Row) :
  let n := length fields in
  let m := length (cells line) in
  let body := _map_reader_gen_body fields rest_key rest_val line in
  (m = n → body = Ok (fields, line))
  ∧ (n < m → ∀ k, rest_key = Some k →
       (NoDup (fields ++ rest_keys k (m - n)) →
        body = Ok (fields ++ rest_keys k (m - n), line))
       ∧ (¬ NoDup (fields ++ rest_keys k (m - n)) → raised body))
  ∧ (n < m → rest_key = None → raised body)
  ∧ (m < n → ∀ v, rest_val = Some v →
       body = Ok (fields,
                  mkRow (line_num line) (cells line ++ replicate (n - m) v)))
  ∧ (m < n → rest_val = None → raised body)
  ∧ (∀ fs l, body = Ok (fs, l) →
       length fs = length (cells l)
       ∧ ∀ i f v, fs !! i = Some f → cells l !! i = Some v →
           zip fs (cells l) !! i = Some (f, v)
           ∧ (NoDup fs → dl_items (dict_line fs l) !! f = Some v)).
Proof.
  intros n m body. subst n m body.
  unfold _map_reader_gen_body, rest_keys, Py.range.
  split_and!.
  - intros ->. by rewrite Nat.eqb_refl.
  - intros Hlt k ->.
    rewrite (proj2 (Nat.eqb_neq _ _)), (proj2 (Nat.ltb_lt _ _)) by lia.
    split; intros Hnd.
    + by rewrite (proj2 (has_duplicates_false _) Hnd).
    + rewrite (proj2 (has_duplicates_true _) Hnd). by eexists.
  - intros Hlt ->.
    rewrite (proj2 (Nat.eqb_neq _ _)), (proj2 (Nat.ltb_lt _ _)) by lia.
    by eexists.
  - intros Hlt v ->.
    by rewrite (proj2 (Nat.eqb_neq _ _)), (proj2 (Nat.ltb_ge _ _)) by lia.
  - intros Hlt ->.
    rewrite (proj2 (Nat.eqb_neq _ _)), (proj2 (Nat.ltb_ge _ _)) by lia.
    by eexists.
  - intros fs l Hbody.
    assert (length fs = length (cells l)) as Hlen.
    { destruct (Nat.eqb_spec (length (cells line)) (length fields));
        [by simplify_eq|].
      destruct (Nat.ltb_spec (length fields) (length (cells line))).
      - destruct rest_key; [|done].
        destruct (Py.has_duplicates _); simplify_eq.
        rewrite length_app, length_map, length_seq. lia.
      - destruct rest_val; simplify_eq. simpl.
        rewrite length_app, length_replicate. lia. }
    split; [done|]. intros i f v Hf Hv. split.
    + by apply lookup_zip_Some.
    + intros Hnd. simpl. by eapply dict_of_zip_lookup.
Qed.

Lemma map_row_to_record_witness :
  _map_reader_gen_body ["a"; "b"] (Some "extra") None (mkRow 1 ["1"; "2"; "3"])
  = Ok (["a"; "b"; "extra0"], mkRow 1 ["1"; "2"; "3"])
  ∧ dl_items (dict_line ["a"; "b"; "extra0"] (mkRow 1 ["1"; "2"; "3"]))
    !! "extra0" = Some "3"
  ∧ _map_reader_gen_body ["a"; "b"] None (Some "") (mkRow 1 ["1"])
    = Ok (["a"; "b"], mkRow 1 ["1"; ""]).
Proof.
  pose proof (map_row_to_record ["a"; "b"] (Some "extra") None
                (mkRow 1 ["1"; "2"; "3"])) as (_ & Hlong & _ & _ & _ & Hrec).
  pose proof (map_row_to_record ["a"; "b"] None (Some "")
                (mkRow 1 ["1"])) as (_ & _ & _ & Hshort & _).
  assert (NoDup ["a"; "b"; "extra0"]) as Hnd
    by (apply has_duplicates_false; reflexivity).
  split_and!.
  - apply (Hlong ltac:(simpl; lia) "extra" eq_refl), Hnd.
  - apply (Hrec _ _ eq_refl) with (i := 2); [reflexivity..|exact Hnd].
  - apply (Hshort ltac:(simpl; lia) "" eq_refl).
Defined.

(** ** Field resolution *)

Lemma renamed_truthy kw names :
  match kw_field_rename kw with
  | Some m => if dict_truthy m then map (rename_get m) names else names
  | None => names
  end = renamed kw names.
Proof.
  unfold renamed, dict_truthy. destruct (kw_field_rename kw) as [m|]; [|done].
  case_bool_decide as Hm; simpl; [|done]. subst m.
  induction names as [|x names IH]; simpl; [done|]. by rewrite <- IH.
Qed.

(** What [_get_fields] does, case by case. *)
Lemma get_fields_kw_eq src kw :
  get_fields_kw Rdr src kw =
    if bool_decide (conflicting kw) then
      Raise (ValueError "rename specified with supplied fields" [])
    else
      match field_source src kw with
      | None => Raise StopIteration
      | Some (names, rest) =>
          if bool_decide (names = []) then
            Raise (ValueError "no fields specified" [])
          else if Py.has_duplicates (renamed kw names) then
            Raise (ValueError "duplicate field names"
                     [AList (renamed kw names)])
          else
            Ok (list_reader Rdr (data_options kw (renamed kw names)),
                renamed kw names, rest)
      end.
Proof.
  unfold get_fields_kw, _get_fields, conflicting, field_source, data_options.
  case_bool_decide; [done|].
  destruct (kw_fields kw) as [cols|]; simpl.
  - rewrite renamed_truthy. by repeat case_match.
  - change (mkOptions _ _ _ None _) with (header_options kw).
    rewrite next_list_reader.
    destruct (first_pass _ src) as [[hdr rest]|]; simpl; [|done].
    rewrite renamed_truthy. by repeat case_match.
Qed.

Lemma renamed_keeps_duplicates kw names :
  ¬ NoDup names → ¬ NoDup (renamed kw names).
Proof.
  unfold renamed. destruct (kw_field_rename kw); [|done].
  intros Hn Hnd. by apply Hn, (NoDup_fmap_1 (rename_get g)).
Qed.

Lemma all_no_blank (l : list string) : Py.all l = true ↔ "" ∉ l.
Proof.
  unfold Py.all. induction l as [|s l IH]; simpl.
  - split; [|done]. intros _. by inversion 1.
  - rewrite andb_true_iff, IH, not_elem_of_cons. destruct s; naive_solver.
Qed.

(** ** Generators *)

Lemma run_dict_reader fuel g :
  mg_finished g = false → length (mg_src g) < fuel →
  run dict_reader_next fuel g
  = map_rows dict_line (mg_fields g) (mg_rest_key g) (mg_rest_val g)
      (omap (pass (mg_rdr g)) (mg_src g)).
Proof.
  revert g. induction fuel as [|fuel IH]; intros g Hfin Hlen; [lia|].
  simpl. unfold dict_reader_next, map_gen_next.
  rewrite Hfin, next_first_pass, (omap_first_pass (pass (mg_rdr g))).
  destruct (first_pass _ (mg_src g)) as [[line rest]|] eqn:E; simpl; [|done].
  apply first_pass_shorter in E.
  destruct (_map_reader_gen_body _ _ _ line) as [[fs l]|e]; simpl; [|done].
  rewrite IH; simpl; [done..|lia].
Qed.

Lemma run_obj_reader fuel g :
  mg_finished (og_gen g) = false → length (mg_src (og_gen g)) < fuel →
  run obj_reader_next fuel g
  = map_rows (build_obj (og_ctor g)) (mg_fields (og_gen g))
      (mg_rest_key (og_gen g)) (mg_rest_val (og_gen g))
      (omap (pass (mg_rdr (og_gen g))) (mg_src (og_gen g))).
Proof.
  revert g. induction fuel as [|fuel IH]; intros [g ctor] Hfin Hlen; [lia|].
  simpl in *. unfold obj_reader_next, map_gen_next. simpl.
  rewrite Hfin, next_first_pass, (omap_first_pass (pass (mg_rdr g))).
  destruct (first_pass _ (mg_src g)) as [[line rest]|] eqn:E; simpl; [|done].
  apply first_pass_shorter in E.
  destruct (_map_reader_gen_body _ _ _ line) as [[fs l]|e]; simpl; [|done].
  rewrite IH; simpl; [done..|lia].
Qed.



(** What the two readers return, in terms of the resolved fields. *)
Lemma dict_reader_eq src kw :
  dict_reader Rdr src kw =
    '(rdr, fields, rest) ← get_fields_kw Rdr src kw;
    if Py.all fields then
      Ok (mkMapGen rdr rest fields (kw_rest_key kw) (kw_rest_val kw) false)
    else Raise (ValueError "blank field name" [AList fields]).
Proof.
  unfold dict_reader. destruct (get_fields_kw Rdr src kw) as [[[rdr fs] rest]|];
    simpl; [|done].
  by destruct (Py.all fs).
Qed.

Lemma dict_reader_Ok src kw g :
  dict_reader Rdr src kw = Ok g →
  ∃ names rest,
    field_source src kw = Some (names, rest)
    ∧ ¬ conflicting kw ∧ names ≠ [] ∧ NoDup (renamed kw names)
    ∧ ("" ∉ renamed kw names)
    ∧ g = mkMapGen (list_reader Rdr (data_options kw (renamed kw names))) rest
            (renamed kw names) (kw_rest_key kw) (kw_rest_val kw) false.
Proof.
  rewrite dict_reader_eq, get_fields_kw_eq.
  case_bool_decide as Hc; [done|].
  destruct (field_source src kw) as [[names rest]|]; [|done].
  case_bool_decide as Hn; [done|].
  destruct (Py.has_duplicates _) eqn:Hd; [done|]. simpl.
  destruct (Py.all _) eqn:Ha; [|done]. intros [= <-].
  exists names, rest. split_and!; try done.
  - by apply has_duplicates_false.
  - by apply all_no_blank.
Qed.

Lemma obj_reader_Ok src ctor kw g :
  obj_reader Rdr src ctor kw = Ok g →
  ∃ names rest,
    field_source src kw = Some (names, rest)
    ∧ ¬ conflicting kw ∧ names ≠ [] ∧ NoDup (renamed kw names)
    ∧ g = mkObjGen
            (mkMapGen (list_reader Rdr (data_options kw (renamed kw names)))
               rest (renamed kw names) (kw_rest_key kw) (kw_rest_val kw)
               false) ctor.
Proof.
  unfold obj_reader. rewrite get_fields_kw_eq.
  case_bool_decide as Hc; [done|].
  destruct (field_source src kw) as [[names rest]|]; [|done].
  case_bool_decide as Hn; [done|].
  destruct (Py.has_duplicates _) eqn:Hd; [done|]. simpl.
  destruct (find _ _); [done|]. intros [= <-].
  exists names, rest. split_and!; try done. by apply has_duplicates_false.
Qed.

(** ** Errors of the readers *)

(** C5.  A resolved field list with a duplicate name, be it in the supplied
    or header-derived names or after renaming, makes the call of
    [dict_reader] and of [obj_reader] raise; and when the generator reaches
    a row whose rest-key expansion gives a list of keys with a duplicate,
    that resumption raises the duplicate-key error. *)
Theorem duplicate_field_names_fail
    (src : list Row) (kw : kwargs) (ctor : gmap string pyval) :
  (∀ names, field_names src kw = Some names →
     ¬ NoDup names ∨ ¬ NoDup (renamed kw names) →
     raised (dict_reader Rdr src kw) ∧ raised (obj_reader Rdr src ctor kw))
  ∧ (∀ g line rest k,
       mg_finished g = false →
       next (mg_rdr g) (mg_src g) = Some (line, rest) →
       mg_rest_key g = Some k →
       length (mg_fields g) < length (cells line) →
       let active :=
         mg_fields g
         ++ rest_keys k (length (cells line) - length (mg_fields g)) in
       ¬ NoDup active →
       let e := ValueError "rest_key generated duplicate key"
                  [AInt (line_num line); AList active] in
       (dict_reader_next g).1 = Throw e
       ∧ (obj_reader_next (mkObjGen g ctor)).1 = Throw e).
Proof.
  split.
  - intros names Hnames Hdup.
    assert (¬ NoDup (renamed kw names)) as Hd.
    { destruct Hdup; [by apply renamed_keeps_duplicates|done]. }
    unfold field_names in Hnames.
    destruct (field_source src kw) as [[names' rest]|] eqn:Hsrc;
      simplify_eq/=.
    assert (get_fields_kw Rdr src kw
            = if bool_decide (conflicting kw) then
                Raise (ValueError "rename specified with supplied fields" [])
              else Raise (ValueError "duplicate field names"
                            [AList (renamed kw names)])) as Hget.
    { rewrite get_fields_kw_eq, Hsrc. case_bool_decide; [done|].
      case_bool_decide as Hnil.
      - subst names. destruct Hd. unfold renamed.
        destruct (kw_field_rename kw); constructor.
      - by rewrite (proj2 (has_duplicates_true _) Hd). }
    unfold dict_reader, obj_reader. rewrite Hget.
    split; case_bool_decide; by eexists.
  - intros g line rest k Hfin Hnext Hk Hlen active Hdup e.
    unfold dict_reader_next, obj_reader_next, map_gen_next. simpl.
    rewrite Hfin, Hnext, Hk. unfold _map_reader_gen_body, Py.range.
    rewrite (proj2 (Nat.eqb_neq _ _)), (proj2 (Nat.ltb_lt _ _)) by lia.
    subst active e. unfold rest_keys in *.
    by rewrite (proj2 (has_duplicates_true _) Hdup).
Qed.

Lemma duplicate_field_names_fail_witness :
  raised (dict_reader Rdr [mkRow 1 ["a"; "b"; "a"]; mkRow 2 ["1"; "2"; "3"]]
            default_kwargs)
  ∧ (dict_reader_next
       (mkMapGen Rdr [mkRow 5 ["1"; "2"; "3"]] ["a"; "x0"] (Some "x") None
          false)).1
    = Throw (ValueError "rest_key generated duplicate key"
               [AInt 5; AList ["a"; "x0"; "x0"]]).
Proof.
  split.
  - refine (proj1 (proj1 (duplicate_field_names_fail
                            [mkRow 1 ["a"; "b"; "a"]; mkRow 2 ["1"; "2"; "3"]]
                            default_kwargs ∅)
                     ["a"; "b"; "a"] eq_refl (or_introl _))).
    apply has_duplicates_true. reflexivity.
  - refine (proj1 (proj2 (duplicate_field_names_fail [] default_kwargs ∅)
                     (mkMapGen Rdr [mkRow 5 ["1"; "2"; "3"]] ["a"; "x0"]
                        (Some "x") None false)
                     (mkRow 5 ["1"; "2"; "3"]) [] "x" eq_refl eq_refl eq_refl
                     _ _)).
    + simpl. lia.
    + apply has_duplicates_true. reflexivity.
Defined.

(** C10.  Without supplied fields, when no row of the input gets through
    trimming, blank-row filtering and the handler (an empty input included),
    the call of [dict_reader] and of [obj_reader] itself raises
    [StopIteration]. *)
Theorem no_header_row_raises_StopIteration
    (src : list Row) (kw : kwargs) (ctor : gmap string pyval) :
  kw_fields kw = None →
  Forall (λ r, clean_row (header_options kw) r = None) src →
  dict_reader Rdr src kw = Raise StopIteration
  ∧ obj_reader Rdr src ctor kw = Raise StopIteration.
Proof.
  intros Hf Hsrc.
  assert (get_fields_kw Rdr src kw = Raise StopIteration) as Hget.
  { rewrite get_fields_kw_eq. unfold conflicting, field_source. rewrite Hf.
    rewrite bool_decide_eq_false_2 by naive_solver.
    by rewrite (proj2 (first_pass_None _ _) Hsrc). }
  unfold dict_reader, obj_reader. by rewrite Hget.
Qed.

Lemma no_header_row_raises_StopIteration_witness :
  dict_reader Rdr [mkRow 1 [""; "  "]; mkRow 2 []] default_kwargs
  = Raise StopIteration
  ∧ obj_reader Rdr [] ∅ default_kwargs = Raise StopIteration.
Proof.
  split.
  - refine (proj1 (no_header_row_raises_StopIteration
                     [mkRow 1 [""; "  "]; mkRow 2 []] default_kwargs ∅
                     eq_refl _)).
    repeat constructor.
  - exact (proj2 (no_header_row_raises_StopIteration [] default_kwargs ∅
                    eq_refl (Forall_nil_2 _))).
Defined.

Lemma dict_reader_run_eq g :
  mg_finished g = false →
  dict_reader_run g
  = map_rows dict_line (mg_fields g) (mg_rest_key g) (mg_rest_val g)
      (to_list (mg_rdr g) (mg_src g)).
Proof.
  intros Hfin. unfold dict_reader_run.
  rewrite run_dict_reader, to_list_omap; [done..|lia].
Qed.

Lemma obj_reader_run_eq g :
  mg_finished (og_gen g) = false →
  obj_reader_run g
  = map_rows (build_obj (og_ctor g)) (mg_fields (og_gen g))
      (mg_rest_key (og_gen g)) (mg_rest_val (og_gen g))
      (to_list (mg_rdr (og_gen g)) (mg_src (og_gen g))).
Proof.
  intros Hfin. unfold obj_reader_run.
  rewrite run_obj_reader, to_list_omap; [done..|lia].
Qed.



(** ** The sentinel row *)

Lemma clean_row_sentinel o r :
  ignore o = Some (cells (trim_row (leading_ws o) (trailing_ws o) r)) →
  clean_row o r = None.
Proof.
  intros Hi. unfold clean_row. rewrite bool_decide_eq_true_2 by done.
  by destruct (_ && _).
Qed.

Lemma to_list_without_sentinel o pre r post :
  ignore o = Some (cells (trim_row (leading_ws o) (trailing_ws o) r)) →
  to_list (list_reader Rdr o) (pre ++ r :: post)
  = to_list (list_reader Rdr o) (pre ++ post).
Proof.
  intros Hi. rewrite !to_list_list_reader, !omap_app. f_equal. csimpl.
  by rewrite clean_row_sentinel.
Qed.

(** C9.  With [ignore_rows_with_fields] on, the sentinel of the data
    reader is the resolved field list: a row of the remaining input whose
    trimmed fields equal the field list contributes nothing, wherever it
    stands; the generator yields what it would yield without that row. *)
Theorem rows_equal_to_fields_dropped
    (src : list Row) (kw : kwargs) (ctor : gmap string pyval) :
  kw_ignore_rows_with_fields kw = true →
  (∀ g pre r post,
     dict_reader Rdr src kw = Ok g →
     mg_src g = pre ++ r :: post →
     cells (trim_row (kw_leading_ws kw) (kw_trailing_ws kw) r) = mg_fields g →
     mg_rdr g
     = list_reader Rdr
         (mkOptions (kw_leading_ws kw) (kw_trailing_ws kw)
            (kw_ignore_blanks kw) (Some (mg_fields g)) (kw_handler kw))
     ∧ dict_reader_run g
       = dict_reader_run (map_gen_advance g (pre ++ post) false))
  ∧ (∀ g pre r post,
       obj_reader Rdr src ctor kw = Ok g →
       mg_src (og_gen g) = pre ++ r :: post →
       cells (trim_row (kw_leading_ws kw) (kw_trailing_ws kw) r)
       = mg_fields (og_gen g) →
       obj_reader_run g
       = obj_reader_run
           (mkObjGen (map_gen_advance (og_gen g) (pre ++ post) false)
              (og_ctor g))).
Proof.
  intros Hirwf. split.
  - intros g pre r post Hg Hsrc Hr.
    apply dict_reader_Ok in Hg as (names & rest & _ & _ & _ & _ & _ & ->).
    simpl in *. unfold data_options. rewrite Hirwf. split; [done|].
    rewrite !dict_reader_run_eq by done. simpl. subst rest.
    by rewrite to_list_without_sentinel by (simpl; congruence).
  - intros g pre r post Hg Hsrc Hr.
    apply obj_reader_Ok in Hg as (names & rest & _ & _ & _ & _ & ->).
    simpl in *. rewrite !obj_reader_run_eq by done. simpl. subst rest.
    unfold data_options. rewrite Hirwf.
    by rewrite to_list_without_sentinel by (simpl; congruence).
Qed.

Lemma rows_equal_to_fields_dropped_witness :
  let src :=
    [mkRow 1 ["a"; "b"]; mkRow 2 ["1"; "2"]; mkRow 3 ["a"; "b  "];
     mkRow 4 ["3"; "4"]] in
  let g :=
    mkMapGen (list_reader Rdr (data_options default_kwargs ["a"; "b"]))
      [mkRow 2 ["1"; "2"]; mkRow 3 ["a"; "b  "]; mkRow 4 ["3"; "4"]]
      ["a"; "b"] None None false in
  dict_reader_run g
  = dict_reader_run
      (map_gen_advance g [mkRow 2 ["1"; "2"]; mkRow 4 ["3"; "4"]] false).
Proof.
  intros src g.
  exact (proj2 (proj1 (rows_equal_to_fields_dropped src default_kwargs ∅
                         eq_refl)
                  g [mkRow 2 ["1"; "2"]] (mkRow 3 ["a"; "b  "])
                  [mkRow 4 ["3"; "4"]] eq_refl eq_refl eq_refl)).
Defined.

(** ** Flattening a mapped record *)

Section flatten.
Context {V : Type}.
Implicit Types (data : gmap string V) (vs : list V).

Lemma flatten_values_positions data fields vs rest_val :
  length fields = length vs →
  (∀ i k v, fields !! i = Some k → vs !! i = Some v → data !! k = Some v) →
  flatten_values data fields rest_val = Ok vs.
Proof.
  revert vs. induction fields as [|k fields IH]; intros [|v vs] Hlen Hpos;
    simplify_eq/=; [done|].
  rewrite (Hpos 0 k v eq_refl eq_refl).
  rewrite (IH vs); [done|done|].
  intros i k' v' Hk' Hv'. by apply (Hpos (S i)).
Qed.

Lemma no_extras fields vs :
  filter (λ kv : string * V, bool_decide (kv.1 ∉ fields))
    (map_to_list (Py.dict_of_zip fields vs)) = [].
Proof.
  apply elem_of_nil_inv. intros [k v] [Hk Hin]%list_elem_of_filter.
  apply bool_decide_unpack in Hk. apply elem_of_map_to_list in Hin.
  simpl in *. by rewrite dict_of_zip_None in Hin.
Qed.

Lemma flatten_dict_of_zip fields vs rest_val extras :
  NoDup fields → length fields = length vs →
  flatten_dict (Py.dict_of_zip fields vs) fields rest_val extras = Ok vs.
Proof.
  intros Hnd Hlen. unfold flatten_dict.
  rewrite (flatten_values_positions _ _ vs) by eauto using dict_of_zip_lookup.
  simpl. rewrite no_extras. destruct extras; simpl; try done.
  by rewrite app_nil_r.
Qed.
End flatten.

(** C3.  For the field list of a [dict_reader] and a row with as many
    values as fields, the mapper yields the fields and the row unchanged,
    and flattening the record built from them with the same field list
    gives the values of the row back, whatever the default value and the
    policy for extra keys. *)
Theorem flatten_mapped_record_roundtrip
    (src : list Row) (kw : kwargs) (g : map_gen) (line : Row)
    (rest_val : option string) (extras : extras_action) :
  dict_reader Rdr src kw = Ok g →
  length (cells line) = length (mg_fields g) →
  _map_reader_gen_body (mg_fields g) (mg_rest_key g) (mg_rest_val g) line
  = Ok (mg_fields g, line)
  ∧ flatten_dict (dl_items (dict_line (mg_fields g) line)) (mg_fields g)
      rest_val extras
    = Ok (cells line).
Proof.
  intros Hg Hlen.
  apply dict_reader_Ok in Hg as (names & rest & _ & _ & _ & Hnd & _ & ->).
  simpl in *. split.
  - unfold _map_reader_gen_body. by rewrite Hlen, Nat.eqb_refl.
  - by apply flatten_dict_of_zip.
Qed.

Lemma flatten_mapped_record_roundtrip_witness :
  let src := [mkRow 1 ["a"; "b"]; mkRow 2 ["1"; "2"]] in
  let g :=
    mkMapGen (list_reader Rdr (data_options default_kwargs ["a"; "b"]))
      [mkRow 2 ["1"; "2"]] ["a"; "b"] None None false in
  flatten_dict (dl_items (dict_line ["a"; "b"] (mkRow 2 ["1"; "2"])))
    ["a"; "b"] None ExtrasRaise
  = Ok ["1"; "2"].
Proof.
  intros src g.
  exact (proj2 (flatten_mapped_record_roundtrip src default_kwargs g
                  (mkRow 2 ["1"; "2"]) None ExtrasRaise eq_refl eq_refl)).
Defined.

(** ** Closing a writer *)

Lemma headerless_close_closed s :
  hl_closed (HeaderlessMixin_close s).1 = true.
Proof.
  unfold HeaderlessMixin_close.
  destruct (hl_closed s) eqn:Hc; simpl; [done|]. by destruct (hl_wrtr s).
Qed.

Lemma header_close_closed s : h_closed (HeaderMixin_close s).1 = true.
Proof.
  unfold HeaderMixin_close. destruct (h_closed s) eqn:Hc; simpl; [done|].
  destruct (h_minimize s), (h_fobj s), (h_wrtr s); simpl; try done.
  by destruct (replay _ _ _).
Qed.

Lemma headerless_closings_closed s cs :
  hl_closed s = true → fold_left headerless_closing cs s = s.
Proof.
  intros Hc. induction cs as [|c cs IH]; simpl; [done|].
  replace (headerless_closing s c) with s; [done|].
  destruct c; simpl; unfold HeaderlessMixin__exit__, HeaderlessMixin_close;
    by rewrite Hc.
Qed.

Lemma header_closings_closed s cs :
  h_closed s = true → fold_left header_closing cs s = s.
Proof.
  intros Hc. induction cs as [|c cs IH]; simpl; [done|].
  replace (header_closing s c) with s; [done|].
  destruct c; simpl; unfold HeaderMixin__exit__, HeaderMixin_close;
    by rewrite Hc.
Qed.

Lemma replay_close_calls w fields records :
  w_close_calls (replay w fields records).1 = w_close_calls w.
Proof.
  revert w. induction records as [|data records IH]; intros w; simpl; [done|].
  destruct (flatten_dict _ _ _ _); simpl; [|done]. by rewrite IH.
Qed.

Lemma header_close_once s :
  h_closed s = false → h_wrtr s = true →
  w_close_calls (h_sink (HeaderMixin_close s).1)
  = S (w_close_calls (h_sink s)).
Proof.
  intros Hc Hw. unfold HeaderMixin_close. rewrite Hc, Hw. simpl.
  destruct (h_minimize s), (h_fobj s); simpl; try done.
  pose proof (replay_close_calls
                (Writer_write (h_sink s) (map Some (close_fields s)))
                (close_fields s) (csv_DictReader (h_tmp s))) as Hr.
  destruct (replay _ _ _) as [w e]. simpl in *. by rewrite Hr.
Qed.

Lemma headerless_write_all_open s rows :
  hl_closed (headerless_write_all s rows) = hl_closed s
  ∧ hl_wrtr (headerless_write_all s rows) = hl_wrtr s
  ∧ w_close_calls (hl_sink (headerless_write_all s rows))
    = w_close_calls (hl_sink s).
Proof.
  revert s. induction rows as [|lst rows IH]; intros s; simpl; [done|].
  destruct (IH (HeaderlessMixin__write s lst).1) as (-> & -> & ->).
  unfold HeaderlessMixin__write. by destruct (hl_wrtr s) eqn:Hw.
Qed.

Lemma header_write_open s lst :
  h_closed (HeaderMixin__write s lst).1 = h_closed s
  ∧ h_wrtr (HeaderMixin__write s lst).1 = h_wrtr s
  ∧ w_close_calls (h_sink (HeaderMixin__write s lst).1)
    = w_close_calls (h_sink s).
Proof.
  unfold HeaderMixin__write, HeaderMixin_store.
  repeat case_match; simplify_eq/=; done.
Qed.

Lemma write_all_open s rows :
  h_closed (write_all s rows) = h_closed s
  ∧ h_wrtr (write_all s rows) = h_wrtr s
  ∧ w_close_calls (h_sink (write_all s rows)) = w_close_calls (h_sink s).
Proof.
  revert s. induction rows as [|lst rows IH]; intros s; [done|].
  unfold write_all in *. simpl.
  destruct (IH (HeaderMixin__write s lst).1) as (-> & -> & ->).
  apply header_write_open.
Qed.

(** C8.  A second [close] changes nothing and raises nothing, for the
    headerless and for the header writer.  For a writer that is open with
    its underlying writer attached, any non-empty sequence of closings, by
    [close] or by the end of a [with] block, calls the [close] of the
    underlying writer exactly once; so it is for a freshly opened writer
    after any sequence of writes. *)
Theorem close_is_idempotent :
  (∀ s : HeaderlessMixin,
     HeaderlessMixin_close (HeaderlessMixin_close s).1
     = ((HeaderlessMixin_close s).1, None))
  ∧ (∀ s : HeaderMixin,
       HeaderMixin_close (HeaderMixin_close s).1
       = ((HeaderMixin_close s).1, None))
  ∧ (∀ (s : HeaderlessMixin) c cs,
       hl_closed s = false → hl_wrtr s = true →
       w_close_calls (hl_sink (fold_left headerless_closing (c :: cs) s))
       = S (w_close_calls (hl_sink s)))
  ∧ (∀ (s : HeaderMixin) c cs,
       h_closed s = false → h_wrtr s = true →
       w_close_calls (h_sink (fold_left header_closing (c :: cs) s))
       = S (w_close_calls (h_sink s)))
  ∧ (∀ rows c cs,
       w_close_calls
         (hl_sink (fold_left headerless_closing (c :: cs)
                     (headerless_write_all HeaderlessMixin_open rows))) = 1)
  ∧ (∀ fields minimize handler rows c cs,
       w_close_calls
         (h_sink (fold_left header_closing (c :: cs)
                    (write_all (HeaderMixin_open fields minimize handler)
                       rows))) = 1).
Proof.
  assert (∀ (s : HeaderlessMixin) c cs,
    hl_closed s = false → hl_wrtr s = true →
    w_close_calls (hl_sink (fold_left headerless_closing (c :: cs) s))
    = S (w_close_calls (hl_sink s))) as Hless.
  { intros s c cs Hc Hw. simpl.
    rewrite headerless_closings_closed
      by (destruct c; apply headerless_close_closed).
    destruct c; simpl; unfold HeaderlessMixin__exit__, HeaderlessMixin_close;
      by rewrite Hc, Hw. }
  assert (∀ (s : HeaderMixin) c cs,
    h_closed s = false → h_wrtr s = true →
    w_close_calls (h_sink (fold_left header_closing (c :: cs) s))
    = S (w_close_calls (h_sink s))) as Hhdr.
  { intros s c cs Hc Hw. simpl.
    rewrite header_closings_closed by (destruct c; apply header_close_closed).
    destruct c; by apply header_close_once. }
  split_and!; [| |exact Hless|exact Hhdr| |].
  - intros s. pose proof (headerless_close_closed s) as Hc.
    unfold HeaderlessMixin_close at 1. by rewrite Hc.
  - intros s. pose proof (header_close_closed s) as Hc.
    unfold HeaderMixin_close at 1. by rewrite Hc.
  - intros rows c cs.
    destruct (headerless_write_all_open HeaderlessMixin_open rows)
      as (Hc & Hw & Hn).
    by rewrite Hless, Hn.
  - intros fields minimize handler rows c cs.
    destruct (write_all_open (HeaderMixin_open fields minimize handler) rows)
      as (Hc & Hw & Hn).
    by rewrite Hhdr, Hn.
Qed.

Lemma close_is_idempotent_witness :
  let s :=
    write_all (HeaderMixin_open ["a"; "b"] true None)
      [[Some "1"; None]; [Some "2"; Some " "]] in
  w_close_calls (h_sink (fold_left header_closing [ByClose; ByExit; ByClose] s))
  = S (w_close_calls (h_sink s)).
Proof.
  intros s.
  exact (proj1 (proj2 (proj2 (proj2 close_is_idempotent))) s ByClose
           [ByExit; ByClose] eq_refl eq_refl).
Defined.

(** ** The minimized header *)

Lemma elem_of_fields_of_data fields data x :
  x ∈ fields_of_data fields data
  ↔ ∃ v, (x, v) ∈ zip fields data ∧ nonblank v = true.
Proof.
  unfold fields_of_data. rewrite elem_of_list_to_set, list_elem_of_fmap.
  split.
  - intros ([k v] & Hx & Hin). simpl in Hx. subst k.
    apply list_elem_of_filter in Hin as [Hv Hin]. exists v.
    split; [done|]. by apply Is_true_true.
  - intros (v & Hin & Hv). exists (x, v). split; [done|].
    apply list_elem_of_filter. split; [|done]. by apply Is_true_true.
Qed.

Lemma header_write_minimize s lst :
  h_minimize s = true → f_close_calls (h_tmp s) = 0 →
  let s' := (HeaderMixin__write s lst).1 in
  h_fields s' = h_fields s ∧ h_minimize s' = true
  ∧ h_handler s' = h_handler s ∧ h_closed s' = h_closed s
  ∧ h_wrtr s' = h_wrtr s ∧ h_fobj s' = h_fobj s ∧ h_sink s' = h_sink s
  ∧ f_close_calls (h_tmp s') = 0
  ∧ h_fields_used s'
    = h_fields_used s
      ∪ match written_data (h_handler s) lst with
        | Some data => fields_of_data (h_fields s) data
        | None => ∅
        end.
Proof.
  intros Hm Hf. unfold HeaderMixin__write, HeaderMixin_store, written_data.
  rewrite Hm, Hf. simpl.
  destruct (h_handler s) as [h|] eqn:Hh; simpl; [|done].
  destruct (h lst) as [data|]; simpl.
  - destruct (length data =? length lst)%nat eqn:Hl; simpl; [done|].
    split_and!; try done. set_solver.
  - split_and!; try done. set_solver.
Qed.

Lemma write_all_minimize s rows :
  h_minimize s = true → f_close_calls (h_tmp s) = 0 →
  let s' := write_all s rows in
  h_fields s' = h_fields s ∧ h_minimize s' = true
  ∧ h_closed s' = h_closed s ∧ h_wrtr s' = h_wrtr s ∧ h_fobj s' = h_fobj s
  ∧ h_sink s' = h_sink s
  ∧ h_fields_used s'
    = h_fields_used s
      ∪ ⋃ (fields_of_data (h_fields s)
             <$> omap (written_data (h_handler s)) rows).
Proof.
  revert s. induction rows as [|lst rows IH]; intros s Hm Hf s'; subst s'.
  { simpl. split_and!; try done. set_solver. }
  change (write_all s (lst :: rows))
    with (write_all (HeaderMixin__write s lst).1 rows).
  destruct (header_write_minimize s lst Hm Hf)
    as (Hfs & Hm' & Hh & Hc & Hw & Hfo & Hsk & Hf' & Hu).
  destruct (IH _ Hm' Hf') as (E1 & E2 & E3 & E4 & E5 & E6 & Hu').
  split_and!; try congruence.
  rewrite Hu', Hu, Hfs, Hh. csimpl.
  destruct (written_data (h_handler s) lst); csimpl; set_solver.
Qed.

Lemma replay_rows w fields records :
  ∃ l, w_rows (replay w fields records).1 = w_rows w ++ l.
Proof.
  revert w. induction records as [|data records IH]; intros w; simpl.
  { exists []. by rewrite app_nil_r. }
  destruct (flatten_dict _ _ _ _) as [lst|e]; simpl.
  - destruct (IH (Writer_write w lst)) as [l ->]. simpl.
    exists (lst :: l). by rewrite <- app_assoc.
  - exists []. by rewrite app_nil_r.
Qed.

Lemma header_at_close_minimize s :
  h_closed s = false → h_minimize s = true → h_fobj s = true →
  h_wrtr s = true →
  header_at_close s = Some (map Some (close_fields s)).
Proof.
  intros Hc Hm Hf Hw. unfold header_at_close, HeaderMixin_close.
  rewrite Hc, Hm, Hf, Hw. simpl.
  destruct (replay_rows (Writer_write (h_sink s) (map Some (close_fields s)))
              (close_fields s) (csv_DictReader (h_tmp s))) as [l Hl].
  destruct (replay _ _ _) as [w e]. simpl in *. rewrite Hl.
  rewrite <- app_assoc. by rewrite lookup_app_r, Nat.sub_diag by lia.
Qed.

Lemma filter_nil_existsb {A} (P : A → bool) (l : list A) :
  bool_decide (filter (λ x, P x) l = []) = negb (existsb P l).
Proof.
  induction l as [|x l IH]; [done|]. rewrite filter_cons. simpl.
  destruct (P x) eqn:Hx; simpl; [done|apply IH].
Qed.

(** C6.  After any sequence of rows written through a minimizing header
    writer, the header that [close] writes first is the original field list
    restricted to the fields that received a non-blank value in a written
    row, and the whole original field list when no field did. *)
Theorem minimized_header_fields
    (fields : list string)
    (handler : option (list value → option (list value)))
    (rows : list (list value)) :
  let self := write_all (HeaderMixin_open fields true handler) rows in
  let written := omap (written_data handler) rows in
  ∃ used : string → bool,
    (∀ x, used x = true ↔ received fields written x)
    ∧ header_at_close self
      = Some (map Some (if existsb used fields
                        then filter (λ x, used x) fields
                        else fields)).
Proof.
  intros self written.
  destruct (write_all_minimize (HeaderMixin_open fields true handler) rows
              eq_refl eq_refl) as (Hfs & Hm & Hc & Hw & Hfo & _ & Hu).
  fold self in Hfs, Hm, Hc, Hw, Hfo, Hu. simpl in *.
  exists (λ x, bool_decide (x ∈ h_fields_used self)). split.
  - intros x.
    rewrite bool_decide_eq_true, Hu, elem_of_union, elem_of_union_list.
    unfold received. split.
    + intros [?|(X & HX & Hx)]; [set_solver|].
      apply list_elem_of_fmap in HX as (data & -> & Hdata).
      apply elem_of_fields_of_data in Hx as (v & ? & ?). by exists data, v.
    + intros (data & v & Hdata & Hin & Hv). right.
      exists (fields_of_data fields data). split.
      * apply list_elem_of_fmap. by exists data.
      * apply elem_of_fields_of_data. by exists v.
  - rewrite header_at_close_minimize by done. unfold close_fields.
    rewrite Hfs, filter_nil_existsb.
    by destruct (existsb _ fields).
Qed.

(** ** The examples of the specification *)

Example record_with_rest_key :
  dict_line ["a"; "b"; "extra0"] (mkRow 1 ["1"; "2"; "3"])
  = mkDictLine 1 {[ "a" := "1"; "b" := "2"; "extra0" := "3" ]}.
Proof. by vm_compute. Qed.

Example record_with_rest_val :
  (dict_reader_next
     (mkMapGen Rdr [mkRow 1 ["1"]] ["a"; "b"] None (Some "") false)).1
  = Yield (mkDictLine 1 {[ "a" := "1"; "b" := "" ]}).
Proof. by vm_compute. Qed.

Example short_row_without_rest_val :
  (dict_reader_next
     (mkMapGen Rdr [mkRow 1 ["1"]] ["a"; "b"] None None false)).1
  = Throw (ValueError "insufficient fields" [AInt 1; AInt 2; AInt 1]).
Proof. reflexivity. Qed.

Example minimized_header_omits_blank_field :
  header_at_close
    (write_all (HeaderMixin_open ["a"; "b"; "c"] true None)
       [[Some "1"; Some "x"; Some " "]; [Some "2"; None; None]])
  = Some [Some "a"; Some "b"].
Proof. by vm_compute. Qed.

Example header_row_repeated_later_is_skipped :
  match dict_reader Rdr
          [mkRow 1 ["a"; "b"]; mkRow 2 ["1"; "2"]; mkRow 3 ["a"; "b"];
           mkRow 4 ["3"; "4"]] default_kwargs with
  | Ok g => map dl_line_num (dict_reader_run g).1
  | Raise _ => []
  end = [2; 4].
Proof. by vm_compute. Qed.

(** * Further properties *)

(** ** Trimming *)

Lemma lstrip_idem s : Py.lstrip (Py.lstrip s) = Py.lstrip s.
Proof.
  induction s as [|c s IH]; simpl; [done|].
  destruct (Py.isspace c) eqn:Hc; [done|]. simpl. by rewrite Hc.
Qed.

Lemma rstrip_cons c s :
  Py.rstrip (String c s)
  = match Py.rstrip s with
    | EmptyString => if Py.isspace c then EmptyString else String c EmptyString
    | String _ _ as t => String c t
    end.
Proof. done. Qed.

Lemma rstrip_idem s : Py.rstrip (Py.rstrip s) = Py.rstrip s.
Proof.
  induction s as [|c s IH]; [done|]. rewrite rstrip_cons.
  destruct (Py.rstrip s) as [|a t] eqn:Hr.
  - destruct (Py.isspace c) eqn:Hc; [done|]. simpl. by rewrite Hc.
  - by rewrite rstrip_cons, IH.
Qed.

(** Removing leading white space leaves a string without trailing white
    space as it is at its end. *)
Lemma rstrip_lstrip_fixed s :
  Py.rstrip s = s → Py.rstrip (Py.lstrip s) = Py.lstrip s.
Proof.
  induction s as [|c s IH]; [done|]. rewrite rstrip_cons. simpl.
  destruct (Py.isspace c) eqn:Hc.
  - destruct (Py.rstrip s) as [|a t] eqn:Hr.
    + intros Hs. simplify_eq.
    + intros [= Hs]. apply IH. by rewrite Hs.
  - intros Hs. by rewrite rstrip_cons, Hc.
Qed.

Lemma strip_idem s : Py.strip (Py.strip s) = Py.strip s.
Proof.
  unfold Py.strip.
  rewrite (rstrip_lstrip_fixed (Py.rstrip s)) by apply rstrip_idem.
  apply lstrip_idem.
Qed.

Lemma trim_row_idem lw tw r :
  trim_row lw tw (trim_row lw tw r) = trim_row lw tw r.
Proof.
  destruct r as [n l]. unfold trim_row, lstrip, rstrip.
  destruct lw, tw; simpl; try done; f_equal; rewrite ?map_map;
    apply map_ext; intros s.
  - apply rstrip_idem.
  - apply lstrip_idem.
  - rewrite (rstrip_lstrip_fixed (Py.rstrip s)) by apply rstrip_idem.
    apply lstrip_idem.
Qed.

Lemma clean_row_no_handler o r t :
  handler o = None → clean_row o r = Some t →
  t = trim_row (leading_ws o) (trailing_ws o) r
  ∧ (ignore_blanks o = true → Py.any (cells t) = true)
  ∧ (∀ ign, ignore o = Some ign → cells t ≠ ign).
Proof.
  intros Hh. unfold clean_row. rewrite Hh.
  set (t0 := trim_row (leading_ws o) (trailing_ws o) r).
  destruct (ignore_blanks o); simpl;
    [destruct (Py.any (cells t0)) eqn:Ha; simpl; [|done]|];
    (case_bool_decide as Hi; [done|]); intros [= <-];
    (split_and!; [done|done|]); intros ign Hign Heq; apply Hi; congruence.
Qed.

Lemma clean_row_fixed o r t :
  handler o = None → clean_row o r = Some t → clean_row o t = Some t.
Proof.
  intros Hh Hr. pose proof Hr as Hr'.
  apply clean_row_no_handler in Hr' as (-> & _ & _); [|done].
  revert Hr. unfold clean_row. by rewrite trim_row_idem.
Qed.

(** X1.  Without a handler [list_reader] is idempotent: reading its own
    output again with the same options changes nothing.  In particular
    trimming twice is trimming once. *)
Theorem list_reader_idempotent (o : options) (src : list Row) :
  handler o = None →
  to_list (list_reader Rdr o) (to_list (list_reader Rdr o) src)
  = to_list (list_reader Rdr o) src.
Proof.
  intros Hh. rewrite !to_list_list_reader.
  induction src as [|r src IH]; [done|]. csimpl.
  destruct (clean_row o r) as [t|] eqn:Hr; [|done]. csimpl.
  by rewrite (clean_row_fixed o r t), IH.
Qed.

Lemma list_reader_idempotent_witness :
  let o := mkOptions false false true (Some ["a"; "b"]) None in
  let src := [mkRow 1 [" a"; "b "]; mkRow 2 ["  "; ""]; mkRow 3 [" 1 "; "2"]] in
  to_list (list_reader Rdr o) (to_list (list_reader Rdr o) src)
  = to_list (list_reader Rdr o) src.
Proof. intros o src. exact (list_reader_idempotent o src eq_refl). Defined.

(** X2.  Without a handler the rows that [list_reader] yields are the
    trimmed rows of a subsequence of its input, in the order of the input:
    no row is added, repeated or moved, and a row keeps its line number and
    its number of fields.  With a handler there are still no more rows out
    than in. *)
Theorem list_reader_keeps_order (o : options) (src : list Row) :
  length (to_list (list_reader Rdr o) src) <= length src
  ∧ (handler o = None →
     ∃ kept, sublist kept src
       ∧ to_list (list_reader Rdr o) src
         = map (trim_row (leading_ws o) (trailing_ws o)) kept
       ∧ Forall2 (λ t r, line_num t = line_num r
                         ∧ length (cells t) = length (cells r))
           (to_list (list_reader Rdr o) src) kept).
Proof.
  rewrite to_list_list_reader. split.
  - induction src as [|r src IH]; csimpl; [done|].
    destruct (clean_row o r); simpl; lia.
  - intros Hh. induction src as [|r src (kept & Hsub & Hout & Hall)]; csimpl.
    { exists []. by split_and!. }
    destruct (clean_row o r) as [t|] eqn:Hr.
    + apply clean_row_no_handler in Hr as (-> & _ & _); [|done].
      exists (r :: kept). split_and!.
      * by constructor.
      * simpl. by rewrite Hout.
      * constructor; [|done]. unfold trim_row, lstrip, rstrip.
        destruct (leading_ws o), (trailing_ws o); simpl;
          by rewrite ?length_map.
    + exists kept. split_and!; [by constructor|done|done].
Qed.

Lemma list_reader_keeps_order_witness :
  let o := mkOptions true false true None None in
  let src := [mkRow 1 ["a "]; mkRow 2 [""]; mkRow 3 ["b"]] in
  ∃ kept, sublist kept src
    ∧ to_list (list_reader Rdr o) src = map (trim_row true false) kept
    ∧ Forall2 (λ t r, line_num t = line_num r
                      ∧ length (cells t) = length (cells r))
        (to_list (list_reader Rdr o) src) kept.
Proof.
  intros o src. exact (proj2 (list_reader_keeps_order o src) eq_refl).
Defined.

(** X3.  Without a handler, [list_reader] with blank-row filtering never
    yields a row whose fields are all empty, and with an ignore sentinel it
    never yields a row equal to the sentinel. *)
Theorem list_reader_never_yields_skipped (o : options) (src : list Row) :
  handler o = None →
  ∀ t, t ∈ to_list (list_reader Rdr o) src →
    (ignore_blanks o = true → all_empty (cells t) = false)
    ∧ (∀ ign, ignore o = Some ign → cells t ≠ ign).
Proof.
  intros Hh t. rewrite to_list_list_reader, list_elem_of_omap.
  intros (r & _ & Hr).
  apply clean_row_no_handler in Hr as (_ & Hany & Hign); [|done].
  split; [|done]. intros Hb. apply Hany in Hb.
  rewrite any_all_empty in Hb. by destruct (all_empty (cells t)).
Qed.

Lemma list_reader_never_yields_skipped_witness :
  let o := mkOptions true true true (Some ["x"]) None in
  let src := [mkRow 1 ["x"]; mkRow 2 [""]; mkRow 3 ["y"]] in
  all_empty (cells (mkRow 3 ["y"])) = false ∧ cells (mkRow 3 ["y"]) ≠ ["x"].
Proof.
  intros o src.
  destruct (list_reader_never_yields_skipped o src eq_refl (mkRow 3 ["y"]))
    as [Hb Hi].
  - vm_compute. apply list_elem_of_here.
  - split; [by apply Hb|by apply Hi].
Defined.

(** X4.  [list_reader] is lazy: one [next] reads the base reader up to the
    first row that gets through the cleaning steps and no further; the rows
    after it stay unread.  It raises [StopIteration] exactly when no row is
    left that gets through, and then the base reader is used up. *)
Theorem next_reads_up_to_first_row (o : options) (src : list Row) :
  (∀ x rest,
     next (list_reader Rdr o) src = Some (x, rest) →
     ∃ skipped r,
       src = skipped ++ r :: rest
       ∧ Forall (λ r, clean_row o r = None) skipped
       ∧ clean_row o r = Some x)
  ∧ (next (list_reader Rdr o) src = None
     ↔ Forall (λ r, clean_row o r = None) src).
Proof.
  rewrite next_list_reader. split.
  - intros x rest. apply first_pass_Some.
  - apply first_pass_None.
Qed.

Lemma next_reads_up_to_first_row_witness :
  let o := mkOptions true true true None None in
  let src := [mkRow 1 [""]; mkRow 2 ["a"]; mkRow 3 ["b"]] in
  ∃ skipped r,
    src = skipped ++ r :: [mkRow 3 ["b"]]
    ∧ Forall (λ r, clean_row o r = None) skipped
    ∧ clean_row o r = Some (mkRow 2 ["a"]).
Proof.
  intros o src.
  exact (proj1 (next_reads_up_to_first_row o src) (mkRow 2 ["a"])
           [mkRow 3 ["b"]] eq_refl).
Defined.

(** ** The header row *)

(** X5.  When [dict_reader] returns a generator: with supplied fields no
    row of the input has been read and the fields are the supplied names;
    without, the input has been read up to the first row that gets through
    the cleaning steps, the rows before it being rows that cleaning drops,
    the fields are the (renamed) fields of that cleaned row, and the rows
    after it are the data. *)
Theorem dict_reader_header_consumed
    (src : list Row) (kw : kwargs) (g : map_gen) :
  dict_reader Rdr src kw = Ok g →
  match kw_fields kw with
  | Some cols => mg_src g = src ∧ mg_fields g = map getattr_name cols
  | None =>
      ∃ skipped hdr h,
        src = skipped ++ hdr :: mg_src g
        ∧ Forall (λ r, clean_row (header_options kw) r = None) skipped
        ∧ clean_row (header_options kw) hdr = Some h
        ∧ mg_fields g = renamed kw (cells h)
  end.
Proof.
  intros Hg.
  apply dict_reader_Ok in Hg as (names & rest & Hsrc & Hc & _ & _ & _ & ->).
  unfold field_source, conflicting, renamed in *. simpl.
  destruct (kw_fields kw) as [cols|]; simplify_eq.
  - split; [done|]. destruct (kw_field_rename kw); [|done].
    destruct Hc. by split.
  - destruct (first_pass _ src) as [[h rest']|] eqn:Hfp; simplify_eq/=.
    apply first_pass_Some in Hfp as (skipped & hdr & -> & Hsk & Hh).
    by exists skipped, hdr, h.
Qed.

Lemma dict_reader_header_consumed_witness :
  let src := [mkRow 1 [""]; mkRow 2 ["a "; "b"]; mkRow 3 ["1"; "2"]] in
  let g :=
    mkMapGen (list_reader Rdr (data_options default_kwargs ["a"; "b"]))
      [mkRow 3 ["1"; "2"]] ["a"; "b"] None None false in
  ∃ skipped hdr h,
    src = skipped ++ hdr :: mg_src g
    ∧ Forall (λ r, clean_row (header_options default_kwargs) r = None) skipped
    ∧ clean_row (header_options default_kwargs) hdr = Some h
    ∧ mg_fields g = renamed default_kwargs (cells h).
Proof.
  intros src g.
  exact (dict_reader_header_consumed src default_kwargs g eq_refl).
Defined.

(** ** What the mapper yields *)

Section dict_of_zip_dom.
Context {V : Type}.

Lemma dom_fold_insert (l : list (string * V)) (m : gmap string V) :
  dom (fold_left (λ m kv, <[kv.1 := kv.2]> m) l m)
  = dom m ∪ list_to_set l.*1.
Proof.
  revert m. induction l as [|[k v] l IH]; intros m; simpl.
  - set_solver.
  - rewrite IH, dom_insert_L. set_solver.
Qed.

Lemma dom_dict_of_zip (ks : list string) (vs : list V) :
  length ks <= length vs → dom (Py.dict_of_zip ks vs) = list_to_set ks.
Proof.
  intros Hlen. unfold Py.dict_of_zip.
  rewrite dom_fold_insert, fst_zip by done. set_solver.
Qed.
End dict_of_zip_dom.

Lemma map_row_fields fields rk rv line fs l :
  _map_reader_gen_body fields rk rv line = Ok (fs, l) →
  (fs = fields
   ∨ ∃ k, rk = Some k
          ∧ fs = fields
                 ++ rest_keys k (length (cells line) - length fields))
  ∧ (NoDup fields → NoDup fs)
  ∧ length fs = length (cells l)
  ∧ line_num l = line_num line
  ∧ ∃ pad, cells l = cells line ++ pad.
Proof.
  unfold _map_reader_gen_body, Py.range, rest_keys.
  destruct (Nat.eqb_spec (length (cells line)) (length fields)) as [Heq|Hne].
  { intros [= <- <-]. split_and!; try done; [by left|].
    exists []. by rewrite app_nil_r. }
  destruct (Nat.ltb_spec (length fields) (length (cells line))).
  - destruct rk as [k|]; [|done].
    destruct (Py.has_duplicates _) eqn:Hd; [done|]. intros [= <- <-].
    split_and!; try done.
    + right. by exists k.
    + intros _. by apply has_duplicates_false.
    + rewrite length_app, length_map, length_seq. lia.
    + exists []. by rewrite app_nil_r.
  - destruct rv as [v|]; [|done]. intros [= <- <-].
    split_and!; try done; [by left| |by eexists].
    simpl. rewrite length_app, length_replicate. lia.
Qed.

(** X6.  What [_map_reader_gen] yields for a row keeps the row: the same
    line number, the values of the row first and in order (only padding is
    added), the given fields first (only generated keys are added), as many
    keys as values.  For a field list without duplicates the keys have no
    duplicate either, so that the record built from them has one entry per
    value: nothing is overwritten. *)
Theorem mapper_keeps_row
    (fields : list string) (rest_key rest_val : option string)
    (line l : Row) (fs : list string) :
  _map_reader_gen_body fields rest_key rest_val line = Ok (fs, l) →
  line_num l = line_num line
  ∧ cells line `prefix_of` cells l
  ∧ fields `prefix_of` fs
  ∧ length fs = length (cells l)
  ∧ (NoDup fields →
     NoDup fs
     ∧ dom (dl_items (dict_line fs l)) = list_to_set fs
     ∧ size (dl_items (dict_line fs l)) = length (cells l)).
Proof.
  intros Hb.
  apply map_row_fields in Hb as (Hfs & Hnd & Hlen & Hnum & pad & Hpad).
  split_and!; try done.
  - rewrite Hpad. by apply prefix_app_r.
  - destruct Hfs as [->|(k & _ & ->)]; [done|]. by apply prefix_app_r.
  - intros Hf. pose proof (Hnd Hf) as Hnd'. simpl.
    assert (dom (Py.dict_of_zip fs (cells l)) = list_to_set fs) as Hdom
      by (apply dom_dict_of_zip; lia).
    split_and!; [done|done|].
    by rewrite <- size_dom, Hdom, size_list_to_set, Hlen.
Qed.

Lemma mapper_keeps_row_witness :
  let line := mkRow 4 ["1"; "2"; "3"] in
  size (dl_items (dict_line ["a"; "b"; "r0"] line)) = 3.
Proof.
  intros line.
  destruct (mapper_keeps_row ["a"; "b"] (Some "r") None line line
              ["a"; "b"; "r0"] eq_refl) as (_ & _ & _ & _ & Hrec).
  apply Hrec. apply has_duplicates_false. reflexivity.
Defined.

(** ** The two readers side by side *)

Lemma find_invalid_none fields f :
  find invalid_field fields = None → f ∈ fields →
  f ≠ "" ∧ isidentifier f = true ∧ f ≠ "line_num".
Proof.
  intros Hfind Hf. apply list_elem_of_In in Hf.
  pose proof (find_none _ _ Hfind _ Hf) as Hinv. unfold invalid_field in Hinv.
  apply orb_false_elim in Hinv as [Hinv Hln].
  apply orb_false_elim in Hinv as [Hb Hid].
  apply negb_false_iff in Hb, Hid. apply bool_decide_eq_false in Hln.
  split_and!; try done. intros ->. done.
Qed.

Lemma obj_reader_fields_valid src ctor kw g :
  obj_reader Rdr src ctor kw = Ok g →
  find invalid_field (mg_fields (og_gen g)) = None.
Proof.
  unfold obj_reader.
  destruct (get_fields_kw Rdr src kw) as [[[rdr fs] rest]|]; simpl; [|done].
  destruct (find invalid_field fs) eqn:Hf; [done|]. by intros [= <-].
Qed.

(** X7.  [obj_reader] is at least as strict as [dict_reader]: whenever
    it returns a generator, [dict_reader] with the same arguments returns
    the generator over the same reader, rows and fields; and every field of
    it is a non-empty identifier other than [line_num]. *)
Theorem obj_reader_stricter_than_dict_reader
    (src : list Row) (ctor : gmap string pyval) (kw : kwargs) (g : obj_gen) :
  obj_reader Rdr src ctor kw = Ok g →
  dict_reader Rdr src kw = Ok (og_gen g)
  ∧ og_ctor g = ctor
  ∧ ∀ f, f ∈ mg_fields (og_gen g) →
      f ≠ "" ∧ isidentifier f = true ∧ f ≠ "line_num".
Proof.
  intros Hg. pose proof (obj_reader_fields_valid _ _ _ _ Hg) as Hvalid.
  split_and!.
  - revert Hg Hvalid. unfold obj_reader, dict_reader.
    destruct (get_fields_kw Rdr src kw) as [[[rdr fs] rest]|]; simpl; [|done].
    destruct (find invalid_field fs) eqn:Hf; [done|]. intros [= <-] _. simpl.
    assert (Py.all fs = true) as ->; [|done].
    apply all_no_blank. intros Hin.
    by destruct (find_invalid_none fs "" Hf Hin) as [? _].
  - revert Hg. unfold obj_reader.
    destruct (get_fields_kw Rdr src kw) as [[[rdr fs] rest]|]; simpl; [|done].
    destruct (find invalid_field fs); [done|]. by intros [= <-].
  - intros f Hf. by apply find_invalid_none with (mg_fields (og_gen g)).
Qed.

Lemma obj_reader_stricter_than_dict_reader_witness :
  let src := [mkRow 1 ["a"; "b_1"]; mkRow 2 ["1"; "2"]] in
  let g :=
    mkMapGen (list_reader Rdr (data_options default_kwargs ["a"; "b_1"]))
      [mkRow 2 ["1"; "2"]] ["a"; "b_1"] None None false in
  dict_reader Rdr src default_kwargs = Ok g.
Proof.
  intros src g.
  exact (proj1 (obj_reader_stricter_than_dict_reader src ∅ default_kwargs
                  (mkObjGen g ∅) eq_refl)).
Defined.

(** ** The objects of [obj_reader] *)









(** ** Rows equal to the fields, sentinel off *)

(** X9.  With [ignore_rows_with_fields] off and no handler, a data row
    whose trimmed fields equal the field list is not dropped: the next
    resumption of the generator of [dict_reader] yields it as the record
    that maps every field to its own name. *)
Theorem rows_equal_to_fields_kept
    (src : list Row) (kw : kwargs) (g : map_gen) (r : Row)
    (rest : list Row) :
  kw_ignore_rows_with_fields kw = false →
  kw_handler kw = None →
  dict_reader Rdr src kw = Ok g →
  mg_src g = r :: rest →
  cells (trim_row (kw_leading_ws kw) (kw_trailing_ws kw) r) = mg_fields g →
  ∃ rec,
    dict_reader_next g = (Yield rec, map_gen_advance g rest false)
    ∧ dl_line_num rec = line_num r
    ∧ ∀ f, f ∈ mg_fields g → dl_items rec !! f = Some f.
Proof.
  intros Hirwf Hh Hg Hsrc Hr.
  apply dict_reader_Ok in Hg as (names & rest' & _ & _ & Hn & Hnd & Hb & ->).
  simpl in *. subst rest'.
  set (fields := renamed kw names) in *.
  set (t := trim_row (kw_leading_ws kw) (kw_trailing_ws kw) r) in *.
  assert (fields ≠ []) as Hne.
  { unfold fields, renamed. destruct (kw_field_rename kw); [|done].
    by destruct names. }
  assert (clean_row (data_options kw fields) r = Some t) as Hclean.
  { unfold clean_row, data_options. simpl. fold t. rewrite Hirwf, Hh, Hr.
    assert (Py.any fields = true) as ->.
    { unfold Py.any. destruct fields as [|f fields']; [done|].
      simpl. destruct f; [|done]. destruct Hb. apply list_elem_of_here. }
    by rewrite andb_false_r. }
  exists (dict_line fields t). split_and!.
  - unfold dict_reader_next, map_gen_next. simpl.
    rewrite next_list_reader. simpl. rewrite Hclean.
    unfold _map_reader_gen_body. by rewrite Hr, Nat.eqb_refl.
  - simpl. unfold t, trim_row, lstrip, rstrip.
    by destruct (kw_leading_ws kw), (kw_trailing_ws kw).
  - intros f Hf. simpl. rewrite Hr.
    apply list_elem_of_lookup_1 in Hf as [i Hi].
    by apply (dict_of_zip_lookup _ _ i).
Qed.

Lemma rows_equal_to_fields_kept_witness :
  let kw := mkKwargs None None true false true None None false None in
  let src := [mkRow 1 ["a"; "b"]; mkRow 2 ["a"; "b "]] in
  let g :=
    mkMapGen (list_reader Rdr (data_options kw ["a"; "b"]))
      [mkRow 2 ["a"; "b "]] ["a"; "b"] None None false in
  ∃ rec,
    dict_reader_next g = (Yield rec, map_gen_advance g [] false)
    ∧ dl_line_num rec = 2
    ∧ ∀ f, f ∈ mg_fields g → dl_items rec !! f = Some f.
Proof.
  intros kw src g.
  exact (rows_equal_to_fields_kept src kw g (mkRow 2 ["a"; "b "]) []
           eq_refl eq_refl eq_refl eq_refl eq_refl).
Defined.

(** ** Sessions of the writers *)

Lemma write_all_plain s rows :
  h_minimize s = false → h_wrtr s = true →
  let s' := write_all s rows in
  h_fields s' = h_fields s ∧ h_minimize s' = false
  ∧ h_handler s' = h_handler s ∧ h_closed s' = h_closed s
  ∧ h_wrtr s' = true ∧ h_fobj s' = h_fobj s ∧ h_tmp s' = h_tmp s
  ∧ h_sink s'
    = mkWriter (w_rows (h_sink s) ++ omap (written_data (h_handler s)) rows)
        (w_close_calls (h_sink s)).
Proof.
  revert s. induction rows as [|lst rows IH]; intros s Hm Hw s'; subst s'.
  { csimpl. rewrite app_nil_r. by destruct s as [? ? ? ? ? ? ? []]. }
  change (write_all s (lst :: rows))
    with (write_all (HeaderMixin__write s lst).1 rows).
  set (out := match written_data (h_handler s) lst with
              | Some data => [data]
              | None => []
              end).
  assert ((HeaderMixin__write s lst).1
          = mkHeader (h_fields s) false (h_handler s) (h_closed s) true
              (h_fobj s) (h_fields_used s)
              (mkWriter (w_rows (h_sink s) ++ out)
                 (w_close_calls (h_sink s)))
              (h_tmp s)) as Hstep.
  { subst out.
    unfold HeaderMixin__write, HeaderMixin_store, written_data, Writer_write.
    rewrite Hm, Hw. destruct s as [fs m h c w fo u [rows' n] tmp].
    simpl in *. subst m w.
    destruct h as [h|]; simpl; [|done].
    destruct (h lst) as [data|]; simpl; [|by rewrite app_nil_r].
    destruct (length data =? length lst)%nat; simpl; [done|].
    by rewrite app_nil_r. }
  rewrite Hstep. simpl.
  destruct (IH (mkHeader (h_fields s) false (h_handler s) (h_closed s) true
                  (h_fobj s) (h_fields_used s)
                  (mkWriter (w_rows (h_sink s) ++ out)
                     (w_close_calls (h_sink s)))
                  (h_tmp s)) eq_refl eq_refl)
    as (-> & -> & -> & -> & -> & -> & -> & ->).
  simpl. split_and!; try done. f_equal. rewrite <- app_assoc. f_equal.
  csimpl. subst out. by destruct (written_data (h_handler s) lst).
Qed.

(** X10.  A session of a header writer that does not minimize: the header
    call writes the field list, every written list goes through the handler
    (dropped when it returns [None], refused when it changes the length) and
    on to the underlying writer in order, and [close] closes the underlying
    writer once, raises nothing and leaves the temporary file alone. *)
Theorem plain_header_session
    (fields : list string)
    (handler : option (list value → option (list value)))
    (rows : list (list value)) :
  let s1 := HeaderMixin_write_header (HeaderMixin_open fields false handler) in
  let s2 := write_all s1.1 rows in
  let s3 := HeaderMixin_close s2 in
  s1.2 = None ∧ s3.2 = None
  ∧ h_sink s3.1
    = mkWriter (map Some fields :: omap (written_data handler) rows) 1
  ∧ h_tmp s3.1 = mkTempFile [] 0
  ∧ h_closed s3.1 = true.
Proof.
  intros s1 s2 s3. subst s1 s2 s3. simpl.
  destruct (write_all_plain
              (HeaderMixin_write_header
                 (HeaderMixin_open fields false handler)).1 rows
              eq_refl eq_refl)
    as (Hf & Hm & Hh & Hc & Hw & Hfo & Htmp & Hsink).
  simpl in *. unfold HeaderMixin_close. rewrite Hc, Hm, Hw, Hsink, Htmp.
  by simpl.
Qed.

Lemma map_default_Some (l : list string) : map (default "") (map Some l) = l.
Proof. induction l as [|x l IH]; simpl; [done|]. by rewrite IH. Qed.

(** X11.  A minimizing header writer gives nothing to the underlying writer
    before [close]: the lists that pass the handler are kept in the
    temporary file after the field list, a [None] as the empty string; and
    its [write_header] raises and changes nothing. *)
Theorem minimizing_writer_buffers
    (fields : list string)
    (handler : option (list value → option (list value)))
    (rows : list (list value)) :
  let s := write_all (HeaderMixin_open fields true handler) rows in
  h_sink s = mkWriter [] 0
  ∧ f_rows (h_tmp s)
    = fields :: map (map (default "")) (omap (written_data handler) rows)
  ∧ f_close_calls (h_tmp s) = 0
  ∧ HeaderMixin_write_header s
    = (s, Some (ValueError "unsupported operation" [])).
Proof.
  intros s. subst s.
  assert (∀ s0 : HeaderMixin,
    h_minimize s0 = true → f_close_calls (h_tmp s0) = 0 →
    h_minimize (write_all s0 rows) = true
    ∧ h_sink (write_all s0 rows) = h_sink s0
    ∧ f_close_calls (h_tmp (write_all s0 rows)) = 0
    ∧ f_rows (h_tmp (write_all s0 rows))
      = f_rows (h_tmp s0)
        ++ map (map (default ""))
             (omap (written_data (h_handler s0)) rows)) as Hall.
  { induction rows as [|lst rows IH]; intros s0 Hm Hf.
    { csimpl. by rewrite app_nil_r. }
    change (write_all s0 (lst :: rows))
      with (write_all (HeaderMixin__write s0 lst).1 rows).
    assert (h_minimize (HeaderMixin__write s0 lst).1 = true
            ∧ f_close_calls (h_tmp (HeaderMixin__write s0 lst).1) = 0
            ∧ h_handler (HeaderMixin__write s0 lst).1 = h_handler s0
            ∧ h_sink (HeaderMixin__write s0 lst).1 = h_sink s0
            ∧ f_rows (h_tmp (HeaderMixin__write s0 lst).1)
              = f_rows (h_tmp s0)
                ++ map (map (default ""))
                     (match written_data (h_handler s0) lst with
                      | Some data => [data]
                      | None => []
                      end)) as (Hm' & Hf' & Hh' & Hs' & Hr').
    { unfold HeaderMixin__write, HeaderMixin_store, written_data.
      rewrite Hm, Hf. simpl.
      destruct (h_handler s0) as [h|] eqn:Hh; simpl; [|done].
      destruct (h lst) as [data|]; simpl.
      - destruct (length data =? length lst)%nat; simpl; [done|].
        by rewrite app_nil_r.
      - by rewrite app_nil_r. }
    destruct (IH _ Hm' Hf') as (-> & -> & -> & ->).
    rewrite Hs', Hr', Hh'. split_and!; try done.
    rewrite <- app_assoc. f_equal. csimpl.
    by destruct (written_data (h_handler s0) lst). }
  destruct (Hall (HeaderMixin_open fields true handler) eq_refl eq_refl)
    as (Hm & Hs & Hf & Hr).
  split_and!; try done.
  - rewrite Hr. simpl. by rewrite map_default_Some.
  - unfold HeaderMixin_write_header. by rewrite Hm.
Qed.

(** ** After [close] *)

Lemma header_close_state s :
  h_closed s = false →
  h_wrtr (HeaderMixin_close s).1 = false
  ∧ h_minimize (HeaderMixin_close s).1 = h_minimize s
  ∧ (h_minimize s = true →
     h_fobj (HeaderMixin_close s).1 = false
     ∧ (h_fobj s = true →
        f_close_calls (h_tmp (HeaderMixin_close s).1)
        = S (f_close_calls (h_tmp s))
        ∧ f_rows (h_tmp (HeaderMixin_close s).1) = f_rows (h_tmp s)))
  ∧ (h_minimize s = false →
     h_tmp (HeaderMixin_close s).1 = h_tmp s
     ∧ h_fobj (HeaderMixin_close s).1 = h_fobj s).
Proof.
  intros Hc. unfold HeaderMixin_close. rewrite Hc. simpl.
  destruct (h_minimize s), (h_fobj s), (h_wrtr s); simpl;
    try destruct (replay _ _ _); simpl; split_and!; done.
Qed.

(** X12.  The temporary file of a minimizing writer is closed exactly once,
    by the first closing, also when the replay of the buffered rows raises,
    and is detached from the writer; later closings do not touch it.  A
    writer that does not minimize never closes it. *)
Theorem temporary_file_closed_once
    (s : HeaderMixin) (c : closing) (cs : list closing) :
  h_closed s = false → h_fobj s = true →
  let s' := fold_left header_closing (c :: cs) s in
  (h_minimize s = true →
   f_close_calls (h_tmp s') = S (f_close_calls (h_tmp s))
   ∧ f_rows (h_tmp s') = f_rows (h_tmp s)
   ∧ h_fobj s' = false)
  ∧ (h_minimize s = false → h_tmp s' = h_tmp s).
Proof.
  intros Hc Hf s'. subst s'. simpl.
  rewrite header_closings_closed by (destruct c; apply header_close_closed).
  destruct (header_close_state s Hc) as (_ & _ & Hmin & Hplain).
  assert (header_closing s c = (HeaderMixin_close s).1) as ->
    by by destruct c.
  split.
  - intros Hm. destruct (Hmin Hm) as (? & Hcl). by destruct (Hcl Hf).
  - intros Hm. by destruct (Hplain Hm).
Qed.

Lemma temporary_file_closed_once_witness :
  let s :=
    write_all (HeaderMixin_open ["a"; "b"] true None)
      [[Some "1"; None]; [None; Some "2"]] in
  let s' := fold_left header_closing [ByExit; ByClose] s in
  f_close_calls (h_tmp s') = S (f_close_calls (h_tmp s))
  ∧ f_rows (h_tmp s') = f_rows (h_tmp s)
  ∧ h_fobj s' = false.
Proof.
  intros s s'.
  exact (proj1 (temporary_file_closed_once s ByExit [ByClose] eq_refl
                  eq_refl) eq_refl).
Defined.

Lemma header_write_detached s lst :
  h_wrtr s = false →
  h_wrtr (HeaderMixin__write s lst).1 = false
  ∧ h_sink (HeaderMixin__write s lst).1 = h_sink s.
Proof.
  intros Hw. unfold HeaderMixin__write, HeaderMixin_store. rewrite Hw.
  repeat case_match; simplify_eq/=; done.
Qed.

(** X13.  A writer that has been closed gives nothing more to the
    underlying writer: whatever is written after [close], the rows of the
    underlying writer and the count of its [close] calls stay as [close]
    left them; and a write on a closed headerless writer raises. *)
Theorem closed_writer_writes_nothing :
  (∀ (s : HeaderMixin) rows,
     h_closed s = false →
     h_sink (write_all (HeaderMixin_close s).1 rows)
     = h_sink (HeaderMixin_close s).1)
  ∧ (∀ (s : HeaderlessMixin) rows,
       hl_closed s = false →
       hl_sink (headerless_write_all (HeaderlessMixin_close s).1 rows)
       = hl_sink (HeaderlessMixin_close s).1
       ∧ ∀ lst,
           HeaderlessMixin__write (HeaderlessMixin_close s).1 lst
           = ((HeaderlessMixin_close s).1, Some no_attribute)).
Proof.
  split.
  - intros s rows Hc.
    destruct (header_close_state s Hc) as (Hw & _).
    revert Hw. generalize (HeaderMixin_close s).1. clear.
    induction rows as [|lst rows IH]; intros s Hw; [done|].
    change (write_all s (lst :: rows))
      with (write_all (HeaderMixin__write s lst).1 rows).
    destruct (header_write_detached s lst Hw) as (Hw' & Hs').
    by rewrite IH.
  - intros s rows Hc.
    assert (hl_wrtr (HeaderlessMixin_close s).1 = false) as Hw.
    { unfold HeaderlessMixin_close. rewrite Hc. simpl.
      by destruct (hl_wrtr s). }
    revert Hw. generalize (HeaderlessMixin_close s).1. clear.
    intros s Hw.
    assert (∀ lst, HeaderlessMixin__write s lst = (s, Some no_attribute))
      as Hwrite.
    { intros lst. unfold HeaderlessMixin__write. by rewrite Hw. }
    split; [|done].
    induction rows as [|lst rows IH]; [done|].
    unfold headerless_write_all in *. simpl. by rewrite Hwrite.
Qed.

Lemma closed_writer_writes_nothing_witness :
  let s := write_all (HeaderMixin_open ["a"] false None) [[Some "1"]] in
  h_sink (write_all (HeaderMixin_close s).1 [[Some "2"]; [Some "3"]])
  = h_sink (HeaderMixin_close s).1.
Proof.
  intros s.
  exact (proj1 closed_writer_writes_nothing s [[Some "2"]; [Some "3"]]
           eq_refl).
Defined.

(** X14.  A headerless writer hands every list to the underlying writer as
    it is and in order, and after any non-empty sequence of closings the
    underlying writer holds exactly these lists and has been closed once. *)
Theorem headerless_session_verbatim
    (rows : list (list value)) (c : closing) (cs : list closing) :
  hl_sink (headerless_write_all HeaderlessMixin_open rows) = mkWriter rows 0
  ∧ hl_sink (fold_left headerless_closing (c :: cs)
               (headerless_write_all HeaderlessMixin_open rows))
    = mkWriter rows 1.
Proof.
  assert (∀ s : HeaderlessMixin,
    hl_wrtr s = true →
    headerless_write_all s rows
    = mkHeaderless (hl_closed s) true
        (mkWriter (w_rows (hl_sink s) ++ rows) (w_close_calls (hl_sink s))))
    as Hall.
  { induction rows as [|lst rows IH]; intros [cl w [rs n]] Hw;
      simpl in *; subst w.
    { by rewrite app_nil_r. }
    unfold headerless_write_all in *. simpl.
    rewrite IH by done. simpl. by rewrite <- app_assoc. }
  rewrite (Hall HeaderlessMixin_open eq_refl). simpl. split; [done|].
  rewrite headerless_closings_closed
    by (destruct c; apply headerless_close_closed).
  by destruct c.
Qed.

(** ** Complete runs of [dict_reader] *)

Lemma map_rows_padded fields rk v rows :
  Forall (λ l, length (cells l) <= length fields) rows →
  map_rows dict_line fields rk (Some v) rows
  = (map (λ l, dict_line fields
                 (mkRow (line_num l)
                    (cells l
                     ++ replicate (length fields - length (cells l)) v)))
       rows, None).
Proof.
  induction 1 as [|l rows Hl _ IH]; simpl; [done|].
  assert (_map_reader_gen_body fields rk (Some v) l
          = Ok (fields,
                mkRow (line_num l)
                  (cells l ++ replicate (length fields - length (cells l)) v)))
    as ->.
  { unfold _map_reader_gen_body.
    destruct (Nat.eqb_spec (length (cells l)) (length fields)) as [Heq|Hne].
    - rewrite Heq, Nat.sub_diag. simpl. rewrite app_nil_r. by destruct l.
    - by rewrite (proj2 (Nat.ltb_ge _ _)) by lia. }
  by rewrite IH.
Qed.

(** X15.  With a rest value configured and no cleaned row longer than the
    field list, the iteration of [dict_reader] never fails: it yields one
    record per cleaned row, in order, built from the row padded with the
    rest value, and the keys of every record are exactly the fields. *)
Theorem dict_reader_pads_short_rows
    (src : list Row) (kw : kwargs) (g : map_gen) (v : string) :
  dict_reader Rdr src kw = Ok g →
  mg_rest_val g = Some v →
  let fields := mg_fields g in
  let cleaned := to_list (mg_rdr g) (mg_src g) in
  Forall (λ l, length (cells l) <= length fields) cleaned →
  dict_reader_run g
  = (map (λ l, dict_line fields
                 (mkRow (line_num l)
                    (cells l
                     ++ replicate (length fields - length (cells l)) v)))
       cleaned, None)
  ∧ Forall (λ rec, dom (dl_items rec) = list_to_set fields)
      (dict_reader_run g).1.
Proof.
  intros Hg Hv fields cleaned Hlen. subst fields cleaned.
  apply dict_reader_Ok in Hg as (names & rest & _ & _ & _ & _ & _ & ->).
  simpl in *. rewrite dict_reader_run_eq by done. simpl. rewrite Hv.
  rewrite map_rows_padded by done. split; [done|]. simpl.
  apply Forall_fmap, Forall_forall. intros l Hl. simpl.
  apply dom_dict_of_zip. rewrite length_app, length_replicate. lia.
Qed.

Lemma dict_reader_pads_short_rows_witness :
  let kw := mkKwargs None None true false true None (Some "-") true None in
  let src := [mkRow 1 ["a"; "b"]; mkRow 2 ["1"]; mkRow 3 ["2"; "3"]] in
  let g :=
    mkMapGen (list_reader Rdr (data_options kw ["a"; "b"]))
      [mkRow 2 ["1"]; mkRow 3 ["2"; "3"]] ["a"; "b"] None (Some "-") false in
  Forall (λ rec, dom (dl_items rec) = list_to_set ["a"; "b"])
    (dict_reader_run g).1.
Proof.
  intros kw src g.
  refine (proj2 (dict_reader_pads_short_rows src kw g "-" eq_refl eq_refl _)).
  repeat constructor.
Defined.

(** ** Trailing white space *)

Section fold_insert_value.
Context {V : Type}.

Lemma fold_insert_value (l : list (string * V)) (m : gmap string V) k v :
  fold_left (λ m kv, <[kv.1 := kv.2]> m) l m !! k = Some v →
  (k, v) ∈ l ∨ m !! k = Some v.
Proof.
  revert m. induction l as [|[k' v'] l IH]; intros m; simpl; [by right|].
  intros [Hin|Hm]%IH; [left; by right|].
  destruct (decide (k' = k)) as [->|Hne].
  - rewrite lookup_insert_eq in Hm. simplify_eq. left. by left.
  - rewrite lookup_insert_ne in Hm by done. by right.
Qed.

Lemma dict_of_zip_value (ks : list string) (vs : list V) k v :
  Py.dict_of_zip ks vs !! k = Some v → v ∈ vs.
Proof.
  intros [Hin|Hm]%fold_insert_value; [|done].
  by apply elem_of_zip_r in Hin.
Qed.
End fold_insert_value.

Lemma map_rows_records fields rk rv rows rec :
  rec ∈ (map_rows dict_line fields rk rv rows).1 →
  ∃ line fs l, line ∈ rows
    ∧ _map_reader_gen_body fields rk rv line = Ok (fs, l)
    ∧ rec = dict_line fs l.
Proof.
  induction rows as [|line rows IH]; simpl; [by inversion 1|].
  destruct (_map_reader_gen_body fields rk rv line) as [[fs l]|e] eqn:Hb;
    simpl; [|by inversion 1].
  destruct (map_rows dict_line fields rk rv rows) as [recs e] eqn:Hrows.
  simpl in *. intros [->|Hin]%elem_of_cons.
  - exists line, fs, l. split_and!; [by left|done..].
  - destruct (IH Hin) as (line' & fs' & l' & ? & ? & ?).
    exists line', fs', l'. split_and!; [by right|done..].
Qed.

(** X16.  When trailing white space is trimmed (the default of
    [dict_reader]) and there is no handler, no value of a yielded record
    ends with white space, the rest value apart: every value is unchanged
    by [rstrip] or is the rest value. *)
Theorem dict_reader_values_right_stripped
    (src : list Row) (kw : kwargs) (g : map_gen) :
  kw_trailing_ws kw = false → kw_handler kw = None →
  dict_reader Rdr src kw = Ok g →
  ∀ rec k v,
    rec ∈ (dict_reader_run g).1 → dl_items rec !! k = Some v →
    Py.rstrip v = v ∨ kw_rest_val kw = Some v.
Proof.
  intros Htw Hh Hg rec k v Hrec Hk.
  apply dict_reader_Ok in Hg as (names & rest & _ & _ & _ & _ & _ & ->).
  rewrite dict_reader_run_eq in Hrec by done. simpl in Hrec.
  apply map_rows_records in Hrec as (line & fs & l & Hline & Hb & ->).
  simpl in Hk. apply dict_of_zip_value in Hk.
  rewrite to_list_list_reader, list_elem_of_omap in Hline.
  destruct Hline as (r & _ & Hr).
  apply clean_row_no_handler in Hr as (-> & _ & _); [|done].
  simpl in Hb. rewrite Htw in Hb.
  assert (∀ x, x ∈ cells (trim_row (kw_leading_ws kw) false r) →
               Py.rstrip x = x) as Hstripped.
  { intros x. unfold trim_row, lstrip, rstrip.
    destruct (kw_leading_ws kw); simpl; rewrite ?map_map;
      intros (y & -> & _)%list_elem_of_fmap.
    - apply rstrip_idem.
    - apply rstrip_lstrip_fixed, rstrip_idem. }
  revert Hb. unfold _map_reader_gen_body.
  repeat case_match; intros [= <- <-]; try (left; by apply Hstripped).
  simpl in Hk. apply elem_of_app in Hk as [Hk|Hk]; [left; by apply Hstripped|].
  apply elem_of_replicate in Hk as [-> _]. right. congruence.
Qed.

Lemma dict_reader_values_right_stripped_witness :
  let src := [mkRow 1 ["a "; "b"]; mkRow 2 [" 1 "; "2  "]] in
  let g :=
    mkMapGen (list_reader Rdr (data_options default_kwargs ["a"; "b"]))
      [mkRow 2 [" 1 "; "2  "]] ["a"; "b"] None None false in
  Py.rstrip " 1" = " 1" ∨ kw_rest_val default_kwargs = Some " 1".
Proof.
  intros src g.
  refine (dict_reader_values_right_stripped src default_kwargs g eq_refl
            eq_refl eq_refl
            (dict_line ["a"; "b"] (mkRow 2 [" 1"; "2"])) "a" " 1" _ eq_refl).
  vm_compute. apply list_elem_of_here.
Defined.

(** ** From the reader to the writer *)

Lemma as_written_dict_of_zip (ks vs : list string) :
  as_written (Py.dict_of_zip ks vs) = Py.dict_of_zip ks (map Some vs).
Proof.
  unfold as_written, Py.dict_of_zip.
  assert (∀ m : gmap string string,
    Some <$> fold_left (λ m kv, <[kv.1 := kv.2]> m) (zip ks vs) m
    = fold_left (λ m kv, <[kv.1 := kv.2]> m) (zip ks (map Some vs))
        (Some <$> m)) as Hfold.
  { revert vs. induction ks as [|k ks IH]; intros [|v vs] m; simpl;
      try done.
    by rewrite IH, fmap_insert. }
  by rewrite Hfold, fmap_empty.
Qed.

(** X17.  A record that [dict_reader] yields for a row with as many values
    as fields, written with [DictWriterMixin.write] to a header writer over
    the same field list (not minimizing, no handler), reaches the underlying
    writer as the values of the row, in order, whatever the policy for extra
    keys and the default value; the flattener is the one modelled from the
    specification. *)
Theorem record_written_back
    (src : list Row) (kw : kwargs) (g : map_gen) (line : Row)
    (rest_val : option value) (extras : extras_action) :
  dict_reader Rdr src kw = Ok g →
  length (cells line) = length (mg_fields g) →
  let w := HeaderMixin_open (mg_fields g) false None in
  let rec := dict_line (mg_fields g) line in
  let out :=
    DictWriterMixin_write w rest_val extras (as_written (dl_items rec)) in
  out.2 = None
  ∧ w_rows (h_sink out.1) = [map Some (cells line)]
  ∧ h_closed out.1 = false.
Proof.
  intros Hg Hlen w rec out. subst w rec out.
  apply dict_reader_Ok in Hg as (names & rest & _ & _ & _ & Hnd & _ & ->).
  simpl in *. unfold DictWriterMixin_write. simpl.
  rewrite as_written_dict_of_zip, flatten_dict_of_zip;
    [done|done|by rewrite length_map].
Qed.

Lemma record_written_back_witness :
  let src := [mkRow 1 ["a"; "b"]; mkRow 2 ["1"; "2"]] in
  let g :=
    mkMapGen (list_reader Rdr (data_options default_kwargs ["a"; "b"]))
      [mkRow 2 ["1"; "2"]] ["a"; "b"] None None false in
  let out :=
    DictWriterMixin_write (HeaderMixin_open ["a"; "b"] false None) None
      ExtrasRaise
      (as_written (dl_items (dict_line ["a"; "b"] (mkRow 2 ["1"; "2"])))) in
  out.2 = None
  ∧ w_rows (h_sink out.1) = [[Some "1"; Some "2"]]
  ∧ h_closed out.1 = false.
Proof.
  intros src g.
  exact (record_written_back src default_kwargs g (mkRow 2 ["1"; "2"]) None
           ExtrasRaise eq_refl eq_refl).
Defined.

(** ** [list_reader] over a wrapped reader *)

Lemma pass_list_reader_over it o r :
  pass (list_reader it o) r = pass it r ≫= clean_row o.
Proof.
  destruct o as [lw tw ib ign h]. unfold list_reader, clean_row, trim_row.
  cbn [leading_ws trailing_ws ignore_blanks ignore handler].
  assert (∀ inner (f : Row → Row),
    (∀ x, pass inner x = f <$> pass it x) →
    pass
      (let rdr :=
         if ib then Filter (λ x, Py.any (cells x)) inner else inner in
       let rdr :=
         match ign with
         | Some ign => Filter (λ x, bool_decide (cells x ≠ ign)) rdr
         | None => rdr
         end in
       match h with
       | Some h => MapNotNone h rdr
       | None => rdr
       end) r =
    pass it r ≫= λ x,
      if ib && negb (Py.any (cells (f x))) then None
      else if bool_decide (ign = Some (cells (f x))) then None
      else match h with Some h => h (f x) | None => Some (f x) end)
    as Hrest.
  { intros inner f Hinner.
    destruct ib, ign as [ign|], h as [h|]; simpl; rewrite Hinner;
      destruct (pass it r) as [x|]; simpl; try done;
      try destruct (Py.any (cells (f x))); simpl; try done;
      try (destruct (decide (cells (f x) = ign)) as [->|Hne];
           [rewrite bool_decide_eq_false_2 by naive_solver;
            by rewrite bool_decide_eq_true_2
           |rewrite bool_decide_eq_true_2 by done;
            by rewrite bool_decide_eq_false_2 by congruence]). }
  destruct lw, tw; cbn [negb andb].
  - apply (Hrest it (λ x, x)). intros x. by destruct (pass it x).
  - apply (Hrest (Map rstrip it) rstrip). done.
  - apply (Hrest (Map lstrip it) lstrip). done.
  - etrans; [by apply (Hrest (Map strip it) strip)|].
    destruct (pass it r) as [x|]; simpl; [|done].
    change (map Py.strip (cells x)) with (cells (strip x)).
    change (map Py.lstrip (map Py.rstrip (cells x)))
      with (cells (lstrip (rstrip x))).
    by rewrite strip_lstrip_rstrip.
Qed.

Lemma omap_bind {A B C} (f : A → option B) (g : B → option C) (l : list A) :
  omap (λ x, f x ≫= g) l = omap g (omap f l).
Proof.
  induction l as [|x l IH]; csimpl; [done|]. rewrite IH.
  destruct (f x) as [y|]; csimpl; [|done]. by destruct (g y).
Qed.

(** X18.  [list_reader] composes: wrapped around any stack of wrappers it
    yields what a [list_reader] with the same options yields when it reads
    the rows of that stack, so that cleaning in two stages is cleaning the
    output of the first stage. *)
Theorem list_reader_composes (it : iter) (o : options) (src : list Row) :
  to_list (list_reader it o) src
  = to_list (list_reader Rdr o) (to_list it src).
Proof.
  rewrite to_list_list_reader, !to_list_omap, <- omap_bind.
  apply omap_pointwise. intros r. apply pass_list_reader_over.
Qed.
